(** * Smart_AC: the prediction core of the frontend

    A shallow embedding of
    - [src/frontend/src/utils/predictions.ts] (the local heuristic),
    - [src/frontend/src/utils/constants] (option tables and defaults),
    - [src/frontend/src/services/api.ts] (the remote prediction client),
    - the state handlers of [src/frontend/src/App.tsx].

    A JavaScript [number] is an IEEE-754 binary64 value; it is modelled by
    Rocq's primitive [float], which is the same format with the same
    round-to-nearest-even arithmetic.  Strings are [string]. *)

From Stdlib Require Import ZArith QArith Qround Lia Bool List String Ascii.
From Stdlib Require Import Floats DecimalString.
From Stdlib Require Uint63.
Import ListNotations.

Set Warnings "-inexact-float,-register-all".

Local Open Scope string_scope.
Local Open Scope float_scope.

(** ** JavaScript numbers *)

Module JSNumber.

(** The exact integer [z] (with [|z| < 2^53] at every use) as a number
    carrying the sign bit [s]; the sign is kept apart so that a zero
    result keeps the sign of the operand, as [Math.floor(-0)] and
    [Math.ceil(-0.3)] do. *)
Definition of_int (s : bool) (z : Z) : float :=
  let f := of_uint63 (Uint63.of_Z (Z.abs z)) in
  if s then - f else f.

(** [Math.floor]: NaN, the infinities and the zeros are returned as they
    are; a finite [m * 2^e] with [0 <= e] is an integer already; otherwise
    the signed mantissa is divided by [2^(-e)], rounding down. *)
Definition Math_floor (x : float) : float :=
  match Prim2SF x with
  | S754_finite s m e =>
      if (0 <=? e)%Z then x
      else of_int s (cond_Zopp s (Zpos m) / 2 ^ (- e))%Z
  | _ => x
  end.

(** [Math.ceil], the mirror image: rounding up is rounding the opposite
    down. *)
Definition Math_ceil (x : float) : float :=
  match Prim2SF x with
  | S754_finite s m e =>
      if (0 <=? e)%Z then x
      else of_int s (- (- cond_Zopp s (Zpos m) / 2 ^ (- e)))%Z
  | _ => x
  end.

(** Rounding towards zero, the integer quotient of [x % 1]. *)
Definition Math_trunc (x : float) : float :=
  if get_sign x then Math_ceil x else Math_floor x.

(** [x % 1].  The remainder operator of JavaScript truncates the
    quotient, so the result has the sign of the dividend: it is NaN for
    NaN and the infinities, [x] for a zero, and [x - trunc x] otherwise
    (an exact subtraction), a zero result taking the sign of [x]. *)
Definition rem1 (x : float) : float :=
  match Prim2SF x with
  | S754_nan | S754_infinity _ => nan
  | S754_zero _ => x
  | S754_finite s _ _ =>
      let r := x - Math_trunc x in
      if PrimFloat.is_zero r then (if s then neg_zero else zero) else r
  end.

(** [Math.min] of two arguments: NaN if either is NaN, and [-0] is
    smaller than [+0]. *)
Definition Math_min (a b : float) : float :=
  if is_nan a || is_nan b then nan
  else if a <? b then a
  else if b <? a then b
  else if get_sign a then a else b.

(** [a > b] *)
Definition gtb (a b : float) : bool := b <? a.

End JSNumber.
Import JSNumber.

Notation "a >? b" := (gtb a b) (at level 70, no associativity) : float_scope.

(** ** types/index.ts *)

Record EnvironmentalData := mkEnvironmentalData {
  indoorTemp : float;
  outdoorTemp : float;
  humidity : float;
  occupancy : float;
  weatherCondition : string;
  timeOfDay : string;
  sunlightIntensity : float;
  roomSize : float;
  windowOpen : bool
}.

Record Option_ := mkOption {
  value : string;
  label : string
}.

(** ** utils/constants *)

Definition weatherOptions : list Option_ :=
  [ mkOption "sunny" "Sunny";
    mkOption "partlyCloudy" "Partly Cloudy";
    mkOption "cloudy" "Cloudy";
    mkOption "rainy" "Rainy";
    mkOption "stormy" "Stormy";
    mkOption "snowy" "Snowy";
    mkOption "windy" "Windy";
    mkOption "foggy" "Foggy" ].

Definition timeOptions : list Option_ :=
  [ mkOption "morning" "Morning (6AM-12PM)";
    mkOption "afternoon" "Afternoon (12PM-5PM)";
    mkOption "evening" "Evening (5PM-10PM)";
    mkOption "night" "Night (10PM-6AM)" ].

Definition initialEnvironmentalData : EnvironmentalData :=
  {| indoorTemp := 26;
     outdoorTemp := 30;
     humidity := 60;
     occupancy := 2;
     weatherCondition := "sunny";
     timeOfDay := "afternoon";
     sunlightIntensity := 7;
     roomSize := 25;
     windowOpen := false |}.

(** ** utils/predictions.ts *)

(** The body of [calculateIdealTemperature] up to the rounding step: the
    value of [idealTemp] on line 73, each [let] one assignment of the
    source. *)
Definition idealBeforeRounding (data : EnvironmentalData) : float :=
  let idealTemp := 24 in
  let outdoorFactor := (outdoorTemp data - 24) * 0.1 in
  let idealTemp := idealTemp + outdoorFactor in
  let idealTemp :=
    if humidity data >? 70 then idealTemp - 1
    else if humidity data <? 30 then idealTemp + 0.5
    else idealTemp in
  let occupancyAdjustment := Math_min (occupancy data * 0.2) 2 in
  let idealTemp := idealTemp - occupancyAdjustment in
  let idealTemp :=
    if (weatherCondition data =? "sunny")%string then idealTemp - 0.5
    else if (weatherCondition data =? "rainy")%string
         || (weatherCondition data =? "cloudy")%string then idealTemp + 0.5
    else if (weatherCondition data =? "snowy")%string
         || (weatherCondition data =? "stormy")%string then idealTemp + 1
    else idealTemp in
  let idealTemp :=
    if (timeOfDay data =? "morning")%string then idealTemp + 0.5
    else if (timeOfDay data =? "afternoon")%string then idealTemp - 0.5
    else if (timeOfDay data =? "night")%string then idealTemp + 1
    else idealTemp in
  let sunlightAdjustment := (sunlightIntensity data / 10) * 1.5 in
  let idealTemp := idealTemp - sunlightAdjustment in
  let idealTemp :=
    if roomSize data >? 50 then idealTemp + 0.5 else idealTemp in
  let idealTemp :=
    if windowOpen data then
      if outdoorTemp data >? indoorTemp data then idealTemp - 1
      else idealTemp + 0.5
    else idealTemp in
  idealTemp.

(** Lines 75-76: the rounding step. *)
Definition roundIdeal (idealTemp : float) : float :=
  let decimal := rem1 idealTemp in
  if decimal <? 0.5 then Math_floor idealTemp else Math_ceil idealTemp.

Definition calculateIdealTemperature (data : EnvironmentalData) : float :=
  roundIdeal (idealBeforeRounding data).

(** ** JavaScript values, strings and arrays *)

Module JS.

(** A value as [JSON.parse] builds it, and [undefined] for what a property
    read finds missing.  The members of an object are in the order of the
    text. *)
Inductive JSValue :=
| JSUndefined
| JSNull
| JSBool (b : bool)
| JSNumber (n : float)
| JSString (s : string)
| JSArray (items : list JSValue)
| JSObject (members : list (string * JSValue)).

(** An instance of [Error] (or of a subclass: [TypeError],
    [SyntaxError]); only its [message] is ever read. *)
Record JSError := mkError { message : string }.

(** What the host decides and the program only passes on: the string of a
    value that is not a string already, and the text of the [TypeError]
    raised by reading property [k] of [null] or [undefined]. *)
Record Host := mkHost {
  ToString : JSValue -> string;
  nullReadMessage : string -> string
}.

(** [ToBoolean], as [||] and [if] apply it. *)
Definition ToBoolean (v : JSValue) : bool :=
  match v with
  | JSUndefined | JSNull => false
  | JSBool b => b
  | JSNumber n => negb (PrimFloat.is_zero n || is_nan n)
  | JSString s => negb (s =? "")%string
  | JSArray _ | JSObject _ => true
  end.

(** [a || b] *)
Definition or_else (a b : JSValue) : JSValue :=
  if ToBoolean a then a else b.

(** The last member named [k], as [JSON.parse] keeps it. *)
Fixpoint lookup (k : string) (members : list (string * JSValue))
  : option JSValue :=
  match members with
  | [] => None
  | (k', v) :: rest =>
      match lookup k rest with
      | Some w => Some w
      | None => if (k' =? k)%string then Some v else None
      end
  end.

(** [v.k] for the two names the program reads, [error] and
    [predicted_ideal_temperature], which no built-in prototype defines:
    a [TypeError] on [null] and [undefined], the member on an object,
    [undefined] on everything else. *)
Definition get (host : Host) (v : JSValue) (k : string)
  : JSError + JSValue :=
  match v with
  | JSUndefined | JSNull => inl (mkError (nullReadMessage host k))
  | JSObject members =>
      inr (match lookup k members with Some w => w | None => JSUndefined end)
  | _ => inr JSUndefined
  end.

(** [new Error(v)]: the message is [v] converted to a string. *)
Definition new_Error (host : Host) (v : JSValue) : JSError :=
  match v with
  | JSString s => mkError s
  | _ => mkError (ToString host v)
  end.

(** [s.split(sep)] for a separator of one character: the pieces between
    the separators, empty ones included; never the empty array. *)
Fixpoint split (sep : ascii) (s : string) : list string :=
  match s with
  | EmptyString => [EmptyString]
  | String c rest =>
      if Ascii.eqb c sep then EmptyString :: split sep rest
      else match split sep rest with
           | [] => [String c EmptyString]
           | w :: ws => String c w :: ws
           end
  end.

(** [a.includes(x)] on an array of strings; [x] may be [undefined]
    ([None]), which no string equals. *)
Definition includes (a : list string) (x : option string) : bool :=
  match x with
  | Some s => existsb (String.eqb s) a
  | None => false
  end.

(** The decimal text of an integer number, as a template literal prints
    it. *)
Definition decimal (n : N) : string :=
  NilZero.string_of_uint (N.to_uint n).

End JS.
Import JS.

(** ** services/api.ts: the request type *)

Record PredictionInput := mkPredictionInput {
  Indoor_Temperature : float;
  Outdoor_Temperature : float;
  Humidity : float;
  Occupancy : float;
  Weather_Condition : string;
  Time_of_Day : string;
  Sunlight_Intensity : float;
  Room_Size : string;
  Window_State : string
}.

(** ** App.tsx: the mapping of [handlePredict], lines 35-77 *)

(** Lines 36-47. *)
Definition weatherConditionApi (environmentalData : EnvironmentalData)
  : string :=
  let selectedWeatherOption :=
    find (fun opt => (value opt =? weatherCondition environmentalData)%string)
         weatherOptions in
  match selectedWeatherOption with
  | Some opt =>
      let label := label opt in
      if includes ["Sunny"; "Cloudy"; "Rainy"; "Snowy"; "Foggy"] (Some label)
      then label
      else if (label =? "Partly Cloudy")%string || (label =? "Windy")%string
      then "Cloudy"
      else if (label =? "Stormy")%string then "Rainy"
      else "Cloudy"
  | None => "Cloudy"
  end.

(** Lines 49-56. *)
Definition timeOfDayApi (environmentalData : EnvironmentalData) : string :=
  let selectedTimeOption :=
    find (fun opt => (value opt =? timeOfDay environmentalData)%string)
         timeOptions in
  match selectedTimeOption with
  | Some opt =>
      let labelPart := nth_error (split " " (label opt)) 0 in
      match labelPart with
      | Some w =>
          if includes ["Morning"; "Afternoon"; "Evening"; "Night"] labelPart
          then w else "Afternoon"
      | None => "Afternoon"
      end
  | None => "Afternoon"
  end.

(** Lines 58-65. *)
Definition roomSizeApi (environmentalData : EnvironmentalData) : string :=
  if roomSize environmentalData <? 15 then "Small"
  else if roomSize environmentalData <? 30 then "Medium"
  else "Large".

(** Lines 67-77. *)
Definition apiInput (environmentalData : EnvironmentalData)
  : PredictionInput :=
  {| Indoor_Temperature := indoorTemp environmentalData;
     Outdoor_Temperature := outdoorTemp environmentalData;
     Humidity := humidity environmentalData;
     Occupancy := occupancy environmentalData;
     Weather_Condition := weatherConditionApi environmentalData;
     Time_of_Day := timeOfDayApi environmentalData;
     Sunlight_Intensity := sunlightIntensity environmentalData;
     Room_Size := roomSizeApi environmentalData;
     Window_State := if windowOpen environmentalData then "Open" else "Closed"
  |}.

(** ** services/api.ts: [getIdealTemperaturePrediction] *)

Module Api.

Definition API_BASE_URL : string := "https://ac-backend-hidq.onrender.com".

(** The request handed to [fetch]; [body] is [JSON.stringify(data)], kept
    as the record it serializes. *)
Record Request := mkRequest {
  url : string;
  method : string;
  headers : list (string * string);
  body : PredictionInput
}.

(** What the program reads of a [Response]: [ok], [status], and the
    outcome of [response.json()], which rejects with an [Error] (a
    [SyntaxError] on a body that is not JSON) or resolves with the parsed
    value. *)
Record Response := mkResponse {
  ok : bool;
  status : N;
  json : JSError + JSValue
}.

(** A thrown value: an instance of [Error], or anything else. *)
Inductive Thrown :=
| ThrownError (e : JSError)
| ThrownOther (v : JSValue).

(** The outcome of awaiting [fetch(...)]. *)
Inductive FetchResult :=
| Rejected (t : Thrown)
| Resolved (response : Response).

Definition Fetch := Request -> FetchResult.

(** Lines 32-38: the arguments of [fetch]. *)
Definition predictRequest (data : PredictionInput) : Request :=
  {| url := API_BASE_URL ++ "/predict";
     method := "POST";
     headers := [("Content-Type", "application/json")];
     body := data |}.

(** Lines 32-46, the [try] block: what it throws, or what it returns. *)
Definition tryBlock (host : Host) (fetch : Fetch) (data : PredictionInput)
  : Thrown + JSValue :=
  match fetch (predictRequest data) with
  | Rejected t => inl t
  | Resolved response =>
      if negb (ok response) then
        match json response with
        | inl e => inl (ThrownError e)
        | inr errorData =>
            match get host errorData "error" with
            | inl e => inl (ThrownError e)
            | inr err =>
                inl (ThrownError
                       (new_Error host
                          (or_else err
                             (JSString ("API request failed with status "
                                        ++ decimal (status response))))))
            end
        end
      else
        match json response with
        | inl e => inl (ThrownError e)
        | inr responseData => inr responseData
        end
  end.

(** Lines 47-53, the [catch] block: an [Error] is thrown again as it is,
    anything else is replaced. *)
Definition catchBlock (error : Thrown) : JSError :=
  match error with
  | ThrownError e => e
  | ThrownOther _ =>
      mkError "An unknown error occurred while fetching prediction."
  end.

(** The promise of [getIdealTemperaturePrediction]: rejected with an
    [Error] ([inl]) or fulfilled with the parsed body ([inr]). *)
Definition getIdealTemperaturePrediction
    (host : Host) (fetch : Fetch) (data : PredictionInput)
  : JSError + JSValue :=
  match tryBlock host fetch data with
  | inl error => inl (catchBlock error)
  | inr responseData => inr responseData
  end.

End Api.
Import Api.

(** ** App.tsx: the state and its handlers *)

Module App.

(** The six [useState] cells of [App]. *)
Record State := mkState {
  darkMode : bool;
  predictedTemperature : JSValue;
  customTemperature : JSValue;
  environmentalData : EnvironmentalData;
  isLoading : bool;
  error : option string
}.

Definition initialState : State :=
  {| darkMode := false;
     predictedTemperature := JSNull;
     customTemperature := JSNull;
     environmentalData := initialEnvironmentalData;
     isLoading := false;
     error := None |}.

(** What a handler does, in order: calls of the state setters, and the
    one call of the remote client. *)
Inductive Effect :=
| SetDarkMode (b : bool)
| SetPredictedTemperature (v : JSValue)
| SetCustomTemperature (v : JSValue)
| SetEnvironmentalData (d : EnvironmentalData)
| SetIsLoading (b : bool)
| SetError (e : option string)
| CallPrediction (input : PredictionInput)
| ConsoleError (e : JSError).

Definition apply (st : State) (eff : Effect) : State :=
  match eff with
  | SetDarkMode b =>
      mkState b (predictedTemperature st) (customTemperature st)
              (environmentalData st) (isLoading st) (error st)
  | SetPredictedTemperature v =>
      mkState (darkMode st) v (customTemperature st)
              (environmentalData st) (isLoading st) (error st)
  | SetCustomTemperature v =>
      mkState (darkMode st) (predictedTemperature st) v
              (environmentalData st) (isLoading st) (error st)
  | SetEnvironmentalData d =>
      mkState (darkMode st) (predictedTemperature st) (customTemperature st)
              d (isLoading st) (error st)
  | SetIsLoading b =>
      mkState (darkMode st) (predictedTemperature st) (customTemperature st)
              (environmentalData st) b (error st)
  | SetError e =>
      mkState (darkMode st) (predictedTemperature st) (customTemperature st)
              (environmentalData st) (isLoading st) e
  | CallPrediction _ | ConsoleError _ => st
  end.

Definition run (st : State) (effs : list Effect) : State :=
  fold_left apply effs st.






(** Lines 82-84, the [catch] clause: [err] is what the [try] block threw,
    always an [Error] here. *)
Definition catchClause (err : JSError) : list Effect :=
  [ SetError (Some (if (message err =? "")%string
                    then "Failed to get prediction. Please try again."
                    else message err));
    ConsoleError err ].

(** Lines 30-88. *)
Definition handlePredict (host : Host) (fetch : Fetch) (st : State)
  : list Effect :=
  let input := apiInput (environmentalData st) in
  [SetIsLoading true; SetError None; SetPredictedTemperature JSNull]
  ++ [CallPrediction input]
  ++ match getIdealTemperaturePrediction host fetch input with
     | inr response =>
         match get host response "predicted_ideal_temperature" with
         | inr v => [SetPredictedTemperature v]
         | inl err => catchClause err
         end
     | inl err => catchClause err
     end
  ++ [SetIsLoading false].

(** Lines 90-93. *)
Definition handleCustomTemperature (temp : JSValue) (st : State)
  : list Effect :=
  [SetCustomTemperature temp; SetPredictedTemperature temp].

End App.
Import App.

(** ** components/TemperatureCard.tsx *)

Module TemperatureCard.

(** The two [useState] cells of the card. *)
Record State := mkCard {
  isEditing : bool;
  inputValue : string
}.

(** Lines 20-27, [handleSubmit]: the effects on [App] (through
    [onCustomTemperature], which [App] sets to [handleCustomTemperature])
    and the card's next state.  [parseFloat] is the host's. *)
Definition handleSubmit (parseFloat : string -> float) (app : App.State)
    (card : State) : list Effect * State :=
  let temp := parseFloat (inputValue card) in
  if negb (is_nan temp)
  then (handleCustomTemperature (JSNumber temp) app,
        mkCard false (inputValue card))
  else ([], card).

End TemperatureCard.

(** ** Notions used in the statements *)

(** The state of end-to-end scenario 1 (the defaults of the form). *)
Definition scenario1 : EnvironmentalData :=
  {| indoorTemp := 26; outdoorTemp := 30; humidity := 60; occupancy := 2;
     weatherCondition := "sunny"; timeOfDay := "afternoon";
     sunlightIntensity := 7; roomSize := 25; windowOpen := false |}.

(** The arithmetic of the specification applied by hand to scenario 1, in
    exact rationals: base 24, +0.6 outdoor drift, no humidity change, -0.4
    occupancy, -0.5 sunny, -0.5 afternoon, -1.05 sunlight, no room-size or
    window change. *)
Definition spec_scenario1_by_hand : Q :=
  (24 + (6 # 10) + 0 - (4 # 10) - (5 # 10) - (5 # 10) - (105 # 100) + 0 + 0)%Q.

(** States whose value before rounding is exactly 24.5, and exactly
    24.49999. *)
Definition state_24_5 : EnvironmentalData :=
  {| indoorTemp := 26; outdoorTemp := 24; humidity := 20; occupancy := 0;
     weatherCondition := "windy"; timeOfDay := "evening";
     sunlightIntensity := 0; roomSize := 25; windowOpen := false |}.

Definition state_24_49999 : EnvironmentalData :=
  {| indoorTemp := 26; outdoorTemp := 28.9999; humidity := 50; occupancy := 0;
     weatherCondition := "windy"; timeOfDay := "evening";
     sunlightIntensity := 0; roomSize := 25; windowOpen := false |}.

(** All six numeric fields are finite numbers. *)
Definition finiteFields (data : EnvironmentalData) : Prop :=
  is_finite (indoorTemp data) = true
  /\ is_finite (outdoorTemp data) = true
  /\ is_finite (humidity data) = true
  /\ is_finite (occupancy data) = true
  /\ is_finite (sunlightIntensity data) = true
  /\ is_finite (roomSize data) = true.

(** A state of extreme values and of tags outside the defined sets. *)
Definition extremeState : EnvironmentalData :=
  {| indoorTemp := -1e308;
     outdoorTemp := 1.7976931348623157e308;
     humidity := -5e-324;
     occupancy := -1.7976931348623157e308;
     weatherCondition := "tornado";
     timeOfDay := "noon";
     sunlightIntensity := -1.7976931348623157e308;
     roomSize := 1e300;
     windowOpen := true |}.

(** The categories of [PredictionInput], and the tags of the option
    tables. *)
Definition weatherCategories : list string :=
  ["Sunny"; "Cloudy"; "Rainy"; "Snowy"; "Foggy"].

Definition timeCategories : list string :=
  ["Morning"; "Afternoon"; "Evening"; "Night"].

Definition weatherTags : list string :=
  ["sunny"; "partlyCloudy"; "cloudy"; "rainy"; "stormy"; "snowy"; "windy";
   "foggy"].

Definition timeTags : list string :=
  ["morning"; "afternoon"; "evening"; "night"].

(** [options.find(opt => opt.value === tag)] *)
Definition selected (options : list Option_) (tag : string) : option Option_ :=
  find (fun opt => (value opt =? tag)%string) options.

(** A state with the given weather tag, or the given time tag. *)
Definition withWeather (d : EnvironmentalData) (tag : string) :=
  mkEnvironmentalData (indoorTemp d) (outdoorTemp d) (humidity d)
    (occupancy d) tag (timeOfDay d) (sunlightIntensity d) (roomSize d)
    (windowOpen d).

Definition withTime (d : EnvironmentalData) (tag : string) :=
  mkEnvironmentalData (indoorTemp d) (outdoorTemp d) (humidity d)
    (occupancy d) (weatherCondition d) tag (sunlightIntensity d) (roomSize d)
    (windowOpen d).

Definition withRoomSize (d : EnvironmentalData) (r : float) :=
  mkEnvironmentalData (indoorTemp d) (outdoorTemp d) (humidity d)
    (occupancy d) (weatherCondition d) (timeOfDay d) (sunlightIntensity d) r
    (windowOpen d).

(** The order of the three buckets. *)
Definition bucketRank (b : string) : nat :=
  if (b =? "Small")%string then 0
  else if (b =? "Medium")%string then 1 else 2.

(** The message the caller shows once [handlePredict] has run. *)
Definition clientMessage (host : Host) (fetch : Fetch) (st : State)
  : option string :=
  error (run st (handlePredict host fetch st)).

(** The message of api.ts line 52. *)
Definition unknownErrorMessage : string :=
  "An unknown error occurred while fetching prediction.".

(** A host for the concrete examples: the texts of V8.  [ToString] is the
    one of a plain object; the examples convert nothing else. *)
Definition exampleHost : Host :=
  {| ToString := fun _ => "[object Object]";
     nullReadMessage := fun k =>
       "Cannot read properties of null (reading '" ++ k ++ "')" |}.

(** A server that answers every request with the same response. *)
Definition respondsWith (response : Response) : Fetch :=
  fun _ => Resolved response.

(** End-to-end scenario 2: status 400, body [{error:"invalid payload"}]. *)
Definition response400 : Response :=
  {| ok := false; status := 400;
     json := inr (JSObject [("error", JSString "invalid payload")]) |}.

(** End-to-end scenario 3: status 200 and an HTML page for a body, on which
    [response.json()] rejects with a [SyntaxError]. *)
Definition syntaxError : JSError :=
  mkError "Unexpected token < in JSON at position 0".

Definition response200_html : Response :=
  {| ok := true; status := 200; json := inl syntaxError |}.

(** A success response as the server documents it (fields the program
    does not read left out). *)
Definition successResponse : Response :=
  {| ok := true; status := 200;
     json := inr (JSObject
                    [("predicted_ideal_temperature", JSNumber 23.5);
                     ("status", JSString "success")]) |}.




(** ** Scaled values and bounds, used by the proofs about rounding *)

Local Open Scope Z_scope.

(** The value [m * 2^e] of a mantissa and an exponent, scaled by [2^2200]
    so that it is an integer for every exponent that occurs. *)
Definition scaled (m e : Z) : Z := m * 2 ^ (e + 2200).

Arguments scaled : simpl never.

(** A zero, or a finite number whose scaled magnitude is at most [bound]. *)
Definition rounds_within (x : spec_float) (bound : Z) : Prop :=
  match x with
  | S754_zero _ => True
  | S754_finite _ m e => scaled (Zpos m) e <= bound
  | _ => False
  end.

(** [x] is a zero or a finite number of magnitude at most [bound / 2^2200]. *)
Definition within (x : float) (bound : Z) : Prop :=
  rounds_within (Prim2SF x) bound.

(** The largest binary64 number, scaled. *)
Definition max_scaled : Z := scaled (2 ^ 53 - 1) 971.

(** A zero, or a number with the sign bit set: not above zero and not NaN. *)
Definition nonpositive (x : spec_float) : Prop :=
  match x with
  | S754_zero _ => True
  | S754_infinity s | S754_finite s _ _ => s = true
  | S754_nan => False
  end.

(** A zero, or a finite number [m * 2^e] that is an integer: [e] is not
    negative, or the low [-e] bits of [m] are zero. *)
Definition whole (x : spec_float) : Prop :=
  match x with
  | S754_zero _ => True
  | S754_finite _ m e => 0 <= e \/ Zpos m mod 2 ^ (- e) = 0
  | _ => False
  end.

Local Close Scope Z_scope.

(** * Properties *)

(** ** Order of binary64 numbers

    [<?] and [<=?] are specified by [SFcompare], a lexicographic comparison
    of sign, exponent and mantissa; the facts below are what the bucketing
    of [handlePredict] needs of it. *)

Section FloatOrder.

Ltac cmp_cases :=
  repeat match goal with
  | |- context [Z.compare ?a ?b] => destruct (Z.compare_spec a b)
  | |- context [Pos.compare_cont Eq ?a ?b] =>
      change (Pos.compare_cont Eq a b) with (Pos.compare a b);
      destruct (Pos.compare_spec a b)
  end; subst; simpl; try reflexivity; try discriminate; try lia.

Lemma SFleb_SFltb_false (x y : spec_float) :
  SFleb x y = true -> SFltb y x = false.
Proof.
  unfold SFleb, SFltb, SFcompare.
  destruct x as [[]|[]| |[] mx ex], y as [[]|[]| |[] my ey];
    simpl; try reflexivity; try discriminate; cmp_cases.
Qed.

Lemma SFltb_SFleb_trans (x y z : spec_float) :
  SFltb x y = true -> SFleb y z = true -> SFltb x z = true.
Proof.
  unfold SFleb, SFltb, SFcompare.
  destruct x as [[]|[]| |[] mx ex], y as [[]|[]| |[] my ey],
           z as [[]|[]| |[] mz ez];
    simpl; try reflexivity; try discriminate; cmp_cases.
Qed.

Lemma leb_ltb_false (a b : float) :
  (a <=? b) = true -> (b <? a) = false.
Proof.
  rewrite FloatAxioms.leb_spec, FloatAxioms.ltb_spec.
  apply SFleb_SFltb_false.
Qed.

Lemma ltb_leb_trans (a b c : float) :
  (a <? b) = true -> (b <=? c) = true -> (a <? c) = true.
Proof.
  rewrite !FloatAxioms.ltb_spec, FloatAxioms.leb_spec.
  apply SFltb_SFleb_trans.
Qed.

Lemma ltb_leb_false (a b c : float) :
  (a <? b) = true -> (b <=? c) = true -> (c <? a) = false.
Proof.
  intros Hab Hbc.
  destruct (c <? a) eqn:Hca; [|reflexivity].
  pose proof (ltb_leb_trans a b c Hab Hbc) as Hac.
  rewrite FloatAxioms.ltb_spec in Hca, Hac.
  unfold SFltb in Hca, Hac.
  destruct (Prim2SF a) as [[]|[]| |[] ma ea], (Prim2SF c) as [[]|[]| |[] mc ec];
    simpl in *; try discriminate;
    revert Hca Hac; cmp_cases.
Qed.

End FloatOrder.

(** ** Rounding of binary64 operations

    [+], [-], [*] and [/] are specified by [SFadd], [SFsub], [SFmul] and
    [SFdiv], which round an exact mantissa and exponent with
    [binary_round_aux].  What follows bounds the result of that rounding:
    it never exceeds a binary64 value that the exact result is strictly
    below, so it does not overflow. *)

Section Binary64Rounding.

Local Open Scope Z_scope.

Lemma digits2_pos_size (p : positive) : digits2_pos p = Pos.size p.
Proof. induction p; simpl; congruence. Qed.

Lemma Zdigits2_bounds (p : positive) :
  2 ^ (Zdigits2 (Zpos p) - 1) <= Zpos p < 2 ^ Zdigits2 (Zpos p).
Proof.
  unfold Zdigits2. rewrite digits2_pos_size.
  assert (Hgt : Zpos p < Zpos (2 ^ Pos.size p))
    by (apply Pos2Z.pos_lt_pos, Pos.size_gt).
  assert (Hle : Zpos (2 ^ Pos.size p) <= 2 * Zpos p)
    by (change (2 * Zpos p) with (Zpos p~0); apply Pos2Z.pos_le_pos, Pos.size_le).
  rewrite Pos2Z.inj_pow in Hgt, Hle.
  assert (H : 2 * 2 ^ (Zpos (Pos.size p) - 1) = 2 ^ Zpos (Pos.size p)).
  { rewrite <- Z.pow_succ_r by lia. f_equal. lia. }
  revert Hgt Hle H.
  generalize (2 ^ Zpos (Pos.size p)) (2 ^ (Zpos (Pos.size p) - 1)).
  intros; lia.
Qed.

Lemma Zdigits2_nonneg (m : Z) : 0 <= Zdigits2 m.
Proof. destruct m; simpl; lia. Qed.

Lemma Zdigits2_pos_bounds (m : Z) :
  0 < m -> 2 ^ (Zdigits2 m - 1) <= m < 2 ^ Zdigits2 m.
Proof. destruct m; try lia. intros _. apply Zdigits2_bounds. Qed.

Lemma Zdigits2_upper (m : Z) : 0 <= m -> m < 2 ^ Zdigits2 m.
Proof.
  intros H. destruct (Z.eq_dec m 0) as [-> | Hne]; [reflexivity|].
  apply Zdigits2_pos_bounds. lia.
Qed.

(** a number below [2^d] has at most [d] digits *)
Lemma Zdigits2_le (m d : Z) : 0 <= m -> 0 <= d -> m < 2 ^ d -> Zdigits2 m <= d.
Proof.
  intros Hm Hd Hlt.
  destruct (Z.eq_dec m 0) as [-> | Hne]; [simpl; lia|].
  destruct (Zdigits2_pos_bounds m ltac:(lia)) as [Hlo _].
  destruct (Z_le_gt_dec (Zdigits2 m) d) as [|Hgt]; [assumption|exfalso].
  assert (2 ^ d <= 2 ^ (Zdigits2 m - 1)) by (apply Z.pow_le_mono_r; lia).
  lia.
Qed.

(** a number from [2^(d-1)] on has at least [d] digits *)
Lemma Zdigits2_ge (m d : Z) : 2 ^ (d - 1) <= m -> 0 < d -> d <= Zdigits2 m.
Proof.
  intros Hlo Hd.
  assert (0 < 2 ^ (d - 1)) by (apply Z.pow_pos_nonneg; lia).
  destruct (Zdigits2_pos_bounds m ltac:(lia)) as [_ Hhi].
  destruct (Z_le_gt_dec d (Zdigits2 m)) as [|Hgt]; [assumption|exfalso].
  assert (2 ^ Zdigits2 m <= 2 ^ (d - 1)).
  { apply Z.pow_le_mono_r; [lia|]. pose proof (Zdigits2_nonneg m). lia. }
  lia.
Qed.

Lemma shr_1_m (r : shr_record) :
  0 <= shr_m r -> shr_m (shr_1 r) = shr_m r / 2.
Proof.
  destruct r as [m r s]. simpl. intros Hm.
  destruct m as [|[p|p|]|p]; simpl; try lia; try reflexivity.
  - rewrite Pos2Z.inj_xI. apply Z.div_unique with (r := 1); lia.
  - rewrite Pos2Z.inj_xO. apply Z.div_unique with (r := 0); lia.
Qed.

Lemma iter_shr_1_m (p : positive) (r : shr_record) :
  0 <= shr_m r -> shr_m (iter_pos shr_1 p r) = shr_m r / 2 ^ Zpos p.
Proof.
  revert r. induction p as [p IH | p IH |]; intros r Hr; simpl iter_pos.
  - assert (H1 : 0 <= shr_m (shr_1 r)).
    { rewrite shr_1_m by assumption. apply Z.div_pos; lia. }
    assert (H2 : 0 <= shr_m (iter_pos shr_1 p (shr_1 r))).
    { rewrite IH by assumption. apply Z.div_pos; [lia|]. apply Z.pow_pos_nonneg; lia. }
    rewrite IH by assumption. rewrite IH by assumption. rewrite shr_1_m by assumption.
    rewrite !Z.div_div by (try apply Z.pow_pos_nonneg; lia).
    f_equal.
    replace (Zpos p~1) with (1 + Zpos p + Zpos p) by lia.
    rewrite !Z.pow_add_r by lia. change (2 ^ 1) with 2. ring.
  - assert (H2 : 0 <= shr_m (iter_pos shr_1 p r)).
    { rewrite IH by assumption. apply Z.div_pos; [lia|]. apply Z.pow_pos_nonneg; lia. }
    rewrite IH by assumption. rewrite IH by assumption.
    rewrite !Z.div_div by (try apply Z.pow_pos_nonneg; lia).
    f_equal.
    replace (Zpos p~0) with (Zpos p + Zpos p) by lia.
    rewrite !Z.pow_add_r by lia. reflexivity.
  - rewrite shr_1_m by assumption. reflexivity.
Qed.

Lemma shr_m_record_of_loc m l : shr_m (shr_record_of_loc m l) = m.
Proof. destruct l as [|[]]; reflexivity. Qed.

(** the mantissa and the exponent that [shr_fexp] gives *)
Lemma shr_fexp_spec (m e : Z) (l : location) :
  0 <= m ->
  let n := fexp prec emax (Zdigits2 m + e) - e in
  shr_m (fst (shr_fexp prec emax m e l)) = m / 2 ^ Z.max n 0
  /\ snd (shr_fexp prec emax m e l) = e + Z.max n 0.
Proof.
  intros Hm n. unfold shr_fexp, shr. fold n.
  destruct n as [|p|p] eqn:Hn; simpl fst; simpl snd.
  - rewrite shr_m_record_of_loc. simpl. rewrite Z.div_1_r. split; lia.
  - rewrite iter_shr_1_m by (rewrite shr_m_record_of_loc; assumption).
    rewrite shr_m_record_of_loc. rewrite Z.max_l by lia. split; reflexivity.
  - rewrite shr_m_record_of_loc. rewrite Z.max_r by lia.
    simpl. rewrite Z.div_1_r. split; lia.
Qed.

Lemma round_nearest_even_bounds m l :
  m <= round_nearest_even m l <= m + 1.
Proof.
  destruct l as [|[]]; simpl; try lia.
  destruct (Z.even m); lia.
Qed.


Lemma pow2_pos (a : Z) : 0 <= a -> 0 < 2 ^ a.
Proof. intros. apply Z.pow_pos_nonneg; lia. Qed.

Lemma pow2_split (a b : Z) : 0 <= a -> 0 <= b -> 2 ^ (a + b) = 2 ^ a * 2 ^ b.
Proof. intros. apply Z.pow_add_r; assumption. Qed.

Lemma scaled_shift (m e n : Z) :
  0 <= n -> -2200 <= e -> scaled (m * 2 ^ n) e = scaled m (e + n).
Proof.
  intros Hn He. unfold scaled.
  replace (e + n + 2200) with (n + (e + 2200)) by lia.
  rewrite (pow2_split n (e + 2200)) by lia. ring.
Qed.

Lemma scaled_le (m m' e : Z) : -2200 <= e -> m <= m' -> scaled m e <= scaled m' e.
Proof.
  intros He Hm. unfold scaled.
  apply Z.mul_le_mono_nonneg_r; [|assumption].
  pose proof (pow2_pos (e + 2200) ltac:(lia)). lia.
Qed.

Lemma scaled_lt_inv (m m' e : Z) :
  -2200 <= e -> scaled m e < scaled m' e -> m < m'.
Proof.
  intros He H. unfold scaled in H.
  apply Z.mul_lt_mono_pos_r in H; [assumption|].
  apply pow2_pos. lia.
Qed.

Lemma scaled_exp_le (m e e' : Z) :
  0 <= m -> -2200 <= e -> e <= e' -> scaled m e <= scaled m e'.
Proof.
  intros Hm He Hee. unfold scaled.
  apply Z.mul_le_mono_nonneg_l; [assumption|].
  apply Z.pow_le_mono_r; lia.
Qed.

(** dropping the low [n] bits does not increase the value *)
Lemma scaled_div (m e n : Z) :
  0 <= m -> 0 <= n -> -2200 <= e ->
  scaled (m / 2 ^ n) (e + n) <= scaled m e.
Proof.
  intros Hm Hn He.
  rewrite <- scaled_shift by assumption.
  apply scaled_le; [assumption|].
  rewrite Z.mul_comm. apply Z.mul_div_le. apply pow2_pos. assumption.
Qed.

Lemma fexp_eq (x : Z) : fexp prec emax x = Z.max (x - 53) (-1074).
Proof. reflexivity. Qed.

(** what one [shr_fexp] does to a mantissa that needs no left shift *)
Lemma shr_fexp_canonical (m e : Z) (l : location) :
  0 <= m -> -2200 <= e ->
  let r := fst (shr_fexp prec emax m e l) in
  let e' := snd (shr_fexp prec emax m e l) in
  0 <= shr_m r
  /\ e <= e'
  /\ scaled (shr_m r) e' <= scaled m e
  /\ (e <= fexp prec emax (Zdigits2 m + e) ->
      e' = fexp prec emax (Zdigits2 m + e)
      /\ shr_m r < 2 ^ 53
      /\ (-1074 < e' -> 2 ^ 52 <= shr_m r))
  /\ (fexp prec emax (Zdigits2 m + e) <= e -> shr_m r = m /\ e' = e).
Proof.
  intros Hm He r e'.
  destruct (shr_fexp_spec m e l Hm) as [Hr He'].
  fold r in Hr. fold e' in He'.
  rewrite fexp_eq in *.
  set (d := Zdigits2 m) in *.
  set (n := Z.max (Z.max (d + e - 53) (-1074) - e) 0) in *.
  assert (Hn : 0 <= n) by (unfold n; lia).
  assert (Hd : 0 <= d) by apply Zdigits2_nonneg.
  assert (Hup : m < 2 ^ d) by (apply Zdigits2_upper; assumption).
  assert (H2n : 0 < 2 ^ n) by (apply pow2_pos; assumption).
  repeat apply conj.
  - rewrite Hr. apply Z.div_pos; lia.
  - lia.
  - rewrite Hr, He'. apply scaled_div; assumption.
  - intros Hpre. repeat apply conj.
    + unfold n in He'. lia.
    + rewrite Hr. apply Z.div_lt_upper_bound; [assumption|].
      rewrite <- pow2_split by lia.
      apply Z.lt_le_trans with (1 := Hup).
      apply Z.pow_le_mono_r; unfold n; lia.
    + intros Hmin.
      assert (Hn' : n = d - 53) by (unfold n in *; lia).
      assert (Hmpos : 0 < m).
      { destruct (Z.eq_dec m 0) as [H0 | H0]; [|lia].
        subst m. unfold d in *. simpl in *. lia. }
      destruct (Zdigits2_pos_bounds m Hmpos) as [Hlo _]. fold d in Hlo.
      rewrite Hr. apply Z.div_le_lower_bound; [assumption|].
      rewrite Z.mul_comm, <- pow2_split by lia.
      replace (52 + n) with (d - 1) by lia. assumption.
  - intros Hpost.
    assert (Hn' : n = 0) by (unfold n; lia).
    rewrite Hn' in *. rewrite Hr, He'. simpl. rewrite Z.div_1_r. split; lia.
Qed.


(** no binary64 value lies strictly between [m * 2^e] and [(m+1) * 2^e] when
    [m] has 53 bits or [e] is the least exponent *)
Lemma scaled_gap (m e k g : Z) :
  0 <= m -> -1074 <= e -> (-1074 < e -> 2 ^ 52 <= m) ->
  0 < k < 2 ^ 53 -> -1074 <= g ->
  scaled m e < scaled k g -> scaled (m + 1) e <= scaled k g.
Proof.
  intros Hm He Hnorm Hk Hg Hlt.
  destruct (Z_le_gt_dec e g) as [Heg | Heg].
  - replace g with (e + (g - e)) in * by lia.
    rewrite <- scaled_shift in * by lia.
    apply scaled_le; [lia|].
    apply scaled_lt_inv in Hlt; lia.
  - exfalso.
    assert (H52 : 2 ^ 52 <= m) by (apply Hnorm; lia).
    assert (H1 : scaled k g <= scaled (2 ^ 53) g) by (apply scaled_le; lia).
    assert (H2 : scaled (2 ^ 53) g <= scaled (2 ^ 53) (e - 1))
      by (apply scaled_exp_le; lia).
    assert (H3 : scaled (2 ^ 53) (e - 1) = scaled (2 ^ 52) e).
    { change (2 ^ 53) with (2 ^ 52 * 2 ^ 1).
      rewrite scaled_shift by lia. f_equal. lia. }
    assert (H4 : scaled (2 ^ 52) e <= scaled m e) by (apply scaled_le; lia).
    lia.
Qed.

(** The rounding of [m * 2^e] (at any location) stays below every binary64
    value [k * 2^g] that [m * 2^e] is strictly below; in particular it
    does not overflow. *)
Lemma binary_round_aux_bound (s : bool) (m e : Z) (l : location) (k g : Z) :
  0 <= m -> -2200 <= e ->
  e <= fexp prec emax (Zdigits2 m + e) ->
  0 < k < 2 ^ 53 -> -1074 <= g <= 971 ->
  scaled m e < scaled k g ->
  match binary_round_aux prec emax s m e l with
  | S754_zero s' => s' = s
  | S754_finite s' m' e' => s' = s /\ scaled (Zpos m') e' <= scaled k g
  | _ => False
  end.
Proof.
  intros Hm He Hpre Hk Hg Hlt.
  unfold binary_round_aux.
  destruct (shr_fexp_canonical m e l Hm He) as (Hm1 & Hee1 & Hv1 & Hc1 & _).
  destruct (shr_fexp prec emax m e l) as [r1 e1]. simpl fst in *. simpl snd in *.
  destruct (Hc1 Hpre) as (He1 & Hm1lt & Hm1norm). clear Hc1.
  assert (He1min : -1074 <= e1) by (rewrite He1, fexp_eq; lia).
  set (m2 := round_nearest_even (shr_m r1) (loc_of_shr_record r1)).
  assert (Hm2 : shr_m r1 <= m2 <= shr_m r1 + 1)
    by apply round_nearest_even_bounds.
  assert (Hv2 : scaled m2 e1 <= scaled k g).
  { apply Z.le_trans with (scaled (shr_m r1 + 1) e1).
    - apply scaled_le; lia.
    - apply scaled_gap; try assumption; lia. }
  destruct (shr_fexp_canonical m2 e1 loc_Exact ltac:(lia) ltac:(lia))
    as (Hm3 & Hee3 & Hv3 & Hc3 & Hn3).
  destruct (shr_fexp prec emax m2 e1 loc_Exact) as [r3 e3].
  simpl fst in *. simpl snd in *.
  assert (Hv : scaled (shr_m r3) e3 <= scaled k g) by lia.
  destruct (shr_m r3) as [|m3|m3] eqn:Hr3; [reflexivity | | lia].
  assert (He3 : e3 <= 971).
  { destruct (Z_le_gt_dec e3 971) as [|Hbig]; [assumption|exfalso].
    assert (H52 : 2 ^ 52 <= Zpos m3).
    { destruct (Z_le_gt_dec e1 (fexp prec emax (Zdigits2 m2 + e1))) as [Hle | Hgt].
      - destruct (Hc3 Hle) as (_ & _ & Hnorm). apply Hnorm. lia.
      - destruct (Hn3 ltac:(lia)) as [Hsame Hesame].
        rewrite Hsame. subst e3.
        assert (2 ^ 52 <= shr_m r1) by (apply Hm1norm; lia). lia. }
    assert (H1 : scaled (2 ^ 52) 972 <= scaled (Zpos m3) e3).
    { apply Z.le_trans with (scaled (2 ^ 52) e3).
      - apply scaled_exp_le; lia.
      - apply scaled_le; lia. }
    assert (H2 : scaled k g < scaled (2 ^ 53) 971).
    { apply Z.lt_le_trans with (scaled (2 ^ 53) g).
      - unfold scaled. apply Z.mul_lt_mono_pos_r; [apply pow2_pos|]; lia.
      - apply scaled_exp_le; lia. }
    assert (H3 : scaled (2 ^ 53) 971 = scaled (2 ^ 52) 972).
    { change (2 ^ 53) with (2 ^ 52 * 2 ^ 1).
      rewrite scaled_shift by lia. reflexivity. }
    lia. }
  apply Z.leb_le in He3. change (emax - prec) with 971. rewrite He3.
  split; [reflexivity | assumption].
Qed.


Lemma iter_xO_mul (p d : positive) : Zpos (Pos.iter xO p d) = Zpos p * 2 ^ Zpos d.
Proof.
  change (Pos.iter xO p d) with (shift_pos d p).
  rewrite shift_pos_correct. rewrite Z.mul_comm. reflexivity.
Qed.

Lemma Zdigits2_shift (p : positive) (d : Z) :
  0 <= d -> Zdigits2 (Zpos p * 2 ^ d) = Zdigits2 (Zpos p) + d.
Proof.
  intros Hd.
  destruct (Zdigits2_bounds p) as [Hlo Hhi].
  pose proof (Zdigits2_nonneg (Zpos p)) as Hn.
  assert (Hpos : 0 < Zdigits2 (Zpos p)) by (simpl; lia).
  pose proof (pow2_pos d Hd) as H2d.
  apply Z.le_antisymm.
  - apply Zdigits2_le; [lia | lia |].
    rewrite pow2_split by lia. apply Z.mul_lt_mono_pos_r; assumption.
  - apply Zdigits2_ge; [|lia].
    replace (Zdigits2 (Zpos p) + d - 1) with (Zdigits2 (Zpos p) - 1 + d) by lia.
    rewrite pow2_split by lia. apply Z.mul_le_mono_nonneg_r; lia.
Qed.

(** the first component of [shl_align] towards a smaller exponent *)
Lemma shl_align_fst (p : positive) (e e' : Z) :
  e' <= e -> Zpos (fst (shl_align p e e')) = Zpos p * 2 ^ (e - e').
Proof.
  intros Hle. unfold shl_align.
  destruct (e' - e) as [|q|q] eqn:Hd; simpl fst.
  - replace (e - e') with 0 by lia. simpl. lia.
  - lia.
  - rewrite iter_xO_mul. f_equal. f_equal. lia.
Qed.

Lemma rounds_within_aux s m e l k g :
  0 <= m -> -2200 <= e ->
  e <= fexp prec emax (Zdigits2 m + e) ->
  0 < k < 2 ^ 53 -> -1074 <= g <= 971 ->
  scaled m e < scaled k g ->
  rounds_within (binary_round_aux prec emax s m e l) (scaled k g).
Proof.
  intros. pose proof (binary_round_aux_bound s m e l k g) as H5.
  unfold rounds_within.
  destruct (binary_round_aux prec emax s m e l); try exact I; try (apply H5; assumption).
Qed.

Lemma binary_round_bound (s : bool) (p : positive) (e k g : Z) :
  -2200 <= e -> 0 < k < 2 ^ 53 -> -1074 <= g <= 971 ->
  scaled (Zpos p) e < scaled k g ->
  rounds_within (binary_round prec emax s p e) (scaled k g).
Proof.
  intros He Hk Hg Hlt. unfold binary_round.
  set (f := fexp prec emax (Zpos (digits2_pos p) + e)).
  assert (Hf : f = fexp prec emax (Zdigits2 (Zpos p) + e)) by reflexivity.
  assert (Hfmin : -1074 <= f) by (rewrite Hf, fexp_eq; lia).
  destruct (Z_le_gt_dec e f) as [Hle | Hgt].
  - assert (Hsa : shl_align p e f = (p, e)).
    { unfold shl_align. destruct (f - e) eqn:Hd; try reflexivity. lia. }
    rewrite Hsa. apply rounds_within_aux; try assumption; lia.
  - pose proof (shl_align_fst p e f ltac:(lia)) as Hfst.
    assert (Hsnd : snd (shl_align p e f) = f).
    { unfold shl_align. destruct (f - e) eqn:Hd; try lia. reflexivity. }
    destruct (shl_align p e f) as [mz ez]. cbn [fst snd] in Hfst, Hsnd. subst ez.
    apply rounds_within_aux; try assumption; try lia.
    + rewrite Hfst, Zdigits2_shift by lia.
      replace (Zdigits2 (Zpos p) + (e - f) + f) with (Zdigits2 (Zpos p) + e) by lia.
      lia.
    + rewrite Hfst, scaled_shift by lia.
      replace (f + (e - f)) with e by lia. assumption.
Qed.

Lemma binary_normalize_bound (z e : Z) (sz : bool) (k g : Z) :
  -2200 <= e -> 0 < k < 2 ^ 53 -> -1074 <= g <= 971 ->
  scaled (Z.abs z) e < scaled k g ->
  rounds_within (binary_normalize prec emax z e sz) (scaled k g).
Proof.
  intros He Hk Hg Hlt. unfold binary_normalize.
  destruct z as [|p|p]; [exact I | |]; apply binary_round_bound; assumption.
Qed.


Lemma scaled_add (a b e : Z) : scaled (a + b) e = scaled a e + scaled b e.
Proof. unfold scaled. ring. Qed.

Lemma scaled_nonneg (m e : Z) : 0 <= m -> -2200 <= e -> 0 <= scaled m e.
Proof.
  intros. unfold scaled. apply Z.mul_nonneg_nonneg; [assumption|].
  pose proof (pow2_pos (e + 2200) ltac:(lia)). lia.
Qed.

(** what [valid_binary] says of a finite number *)
Lemma valid_finite (s : bool) (m : positive) (e : Z) :
  valid_binary (S754_finite s m e) = true ->
  -1074 <= e <= 971
  /\ Zdigits2 (Zpos m) <= 53
  /\ (-1074 < e -> Zdigits2 (Zpos m) = 53)
  /\ e = fexp prec emax (Zdigits2 (Zpos m) + e).
Proof.
  unfold SpecFloat.valid_binary, bounded, canonical_mantissa.
  intros H. apply andb_true_iff in H. destruct H as [Hc Hb].
  apply Z.eqb_eq in Hc. apply Z.leb_le in Hb.
  change (emax - prec) with 971 in Hb.
  change (Zpos (digits2_pos m)) with (Zdigits2 (Zpos m)) in Hc.
  rewrite fexp_eq in *. lia.
Qed.

Lemma valid_finite_max (s : bool) (m : positive) (e : Z) :
  valid_binary (S754_finite s m e) = true ->
  scaled (Zpos m) e <= scaled (2 ^ 53 - 1) 971.
Proof.
  intros Hv. destruct (valid_finite s m e Hv) as (He & Hd & _).
  assert (Hm : Zpos m < 2 ^ 53).
  { apply Z.lt_le_trans with (2 ^ Zdigits2 (Zpos m)).
    - apply Zdigits2_upper. lia.
    - apply Z.pow_le_mono_r; lia. }
  apply Z.le_trans with (scaled (2 ^ 53 - 1) e).
  - apply scaled_le; lia.
  - apply scaled_exp_le; lia.
Qed.

Lemma rounds_within_mono (x : spec_float) (A B : Z) :
  A <= B -> rounds_within x A -> rounds_within x B.
Proof. intros HAB. destruct x; simpl; try tauto. lia. Qed.

Lemma abs_cond_Zopp_add (sx sy : bool) (a b : Z) :
  0 <= a -> 0 <= b ->
  Z.abs (cond_Zopp sx a + cond_Zopp sy b) <= a + b
  /\ Z.abs (cond_Zopp sx a - cond_Zopp sy b) <= a + b.
Proof. destruct sx, sy; simpl; lia. Qed.

Lemma aligned_sum_bound (mx my : positive) (ex ey : Z) (A B : Z) :
  -1074 <= ex -> -1074 <= ey ->
  scaled (Zpos mx) ex <= A -> scaled (Zpos my) ey <= B ->
  scaled (Zpos (fst (shl_align mx ex (Z.min ex ey)))
          + Zpos (fst (shl_align my ey (Z.min ex ey)))) (Z.min ex ey)
  <= A + B.
Proof.
  intros Hex Hey HA HB.
  rewrite !shl_align_fst by lia.
  rewrite scaled_add, !scaled_shift by lia.
  replace (Z.min ex ey + (ex - Z.min ex ey)) with ex by lia.
  replace (Z.min ex ey + (ey - Z.min ex ey)) with ey by lia.
  lia.
Qed.

Lemma SFadd_within (x y : spec_float) (A B k g : Z) :
  valid_binary x = true -> valid_binary y = true ->
  0 <= A -> 0 <= B ->
  rounds_within x A -> rounds_within y B ->
  0 < k < 2 ^ 53 -> -1074 <= g <= 971 ->
  A + B < scaled k g ->
  rounds_within (SF64add x y) (scaled k g).
Proof.
  intros Hvx Hvy HA HB Hx Hy Hk Hg Hlt.
  destruct x as [sx|sx| |sx mx ex], y as [sy|sy| |sy my ey];
    simpl in Hx, Hy; try contradiction.
  - simpl. destruct sx, sy; exact I.
  - simpl. lia.
  - simpl. lia.
  - unfold SF64add, SFadd.
    destruct (valid_finite _ _ _ Hvx) as (Hex & _).
    destruct (valid_finite _ _ _ Hvy) as (Hey & _).
    pose proof (aligned_sum_bound mx my ex ey A B ltac:(lia) ltac:(lia) Hx Hy)
      as Hsum.
    set (X := Zpos (fst (shl_align mx ex (Z.min ex ey)))) in *.
    set (Y := Zpos (fst (shl_align my ey (Z.min ex ey)))) in *.
    apply binary_normalize_bound; try assumption; try lia.
    apply Z.le_lt_trans with (scaled (X + Y) (Z.min ex ey)); [|lia].
    apply scaled_le; [lia|].
    apply abs_cond_Zopp_add; unfold X, Y; lia.
Qed.

Lemma SFsub_within (x y : spec_float) (A B k g : Z) :
  valid_binary x = true -> valid_binary y = true ->
  0 <= A -> 0 <= B ->
  rounds_within x A -> rounds_within y B ->
  0 < k < 2 ^ 53 -> -1074 <= g <= 971 ->
  A + B < scaled k g ->
  rounds_within (SF64sub x y) (scaled k g).
Proof.
  intros Hvx Hvy HA HB Hx Hy Hk Hg Hlt.
  destruct x as [sx|sx| |sx mx ex], y as [sy|sy| |sy my ey];
    simpl in Hx, Hy; try contradiction.
  - simpl. destruct sx, sy; exact I.
  - simpl. lia.
  - simpl. lia.
  - unfold SF64sub, SFsub.
    destruct (valid_finite _ _ _ Hvx) as (Hex & _).
    destruct (valid_finite _ _ _ Hvy) as (Hey & _).
    pose proof (aligned_sum_bound mx my ex ey A B ltac:(lia) ltac:(lia) Hx Hy)
      as Hsum.
    set (X := Zpos (fst (shl_align mx ex (Z.min ex ey)))) in *.
    set (Y := Zpos (fst (shl_align my ey (Z.min ex ey)))) in *.
    apply binary_normalize_bound; try assumption; try lia.
    apply Z.le_lt_trans with (scaled (X + Y) (Z.min ex ey)); [|lia].
    apply scaled_le; [lia|].
    apply abs_cond_Zopp_add; unfold X, Y; lia.
Qed.


(** the product of two mantissas has at least one digit less than the sum
    of their digits *)
Lemma Zdigits2_mul_ge (p q : positive) :
  Zdigits2 (Zpos p) + Zdigits2 (Zpos q) - 1 <= Zdigits2 (Zpos (p * q)).
Proof.
  destruct (Zdigits2_bounds p) as [Hp _].
  destruct (Zdigits2_bounds q) as [Hq _].
  assert (0 < Zdigits2 (Zpos p)) by (simpl; lia).
  assert (0 < Zdigits2 (Zpos q)) by (simpl; lia).
  apply Zdigits2_ge; [|lia].
  replace (Zdigits2 (Zpos p) + Zdigits2 (Zpos q) - 1 - 1)
    with ((Zdigits2 (Zpos p) - 1) + (Zdigits2 (Zpos q) - 1)) by lia.
  rewrite pow2_split by lia. rewrite Pos2Z.inj_mul.
  apply Z.mul_le_mono_nonneg; try assumption;
    apply Z.lt_le_incl, pow2_pos; lia.
Qed.

(** [x * c] for a constant [c = mc * 2^ec] with [ec <= 0] *)
Lemma SFmul_within (x : spec_float) (sc : bool) (mc : positive) (ec : Z)
    (A k g : Z) :
  valid_binary x = true -> valid_binary (S754_finite sc mc ec) = true ->
  0 <= A -> rounds_within x A -> ec <= 0 ->
  0 < k < 2 ^ 53 -> -1074 <= g <= 971 ->
  Zpos mc * A < scaled k g * 2 ^ (- ec) ->
  rounds_within (SF64mul x (S754_finite sc mc ec)) (scaled k g).
Proof.
  intros Hvx Hvc HA Hx Hec Hk Hg Hlt.
  destruct x as [sx|sx| |sx mx ex]; simpl in Hx; try contradiction.
  - exact I.
  - unfold SF64mul, SFmul.
    destruct (valid_finite _ _ _ Hvx) as (Hex & Hdx & Hnx & _).
    destruct (valid_finite _ _ _ Hvc) as (Hecb & Hdc & Hnc & _).
    pose proof (Zdigits2_mul_ge mx mc) as Hd.
    assert (Hdx1 : 0 < Zdigits2 (Zpos mx)) by (simpl; lia).
    assert (Hdc1 : 0 < Zdigits2 (Zpos mc)) by (simpl; lia).
    assert (H2 : 0 < 2 ^ (- ec)) by (apply pow2_pos; lia).
    apply rounds_within_aux; try assumption; try lia.
    + rewrite fexp_eq. lia.
    + apply Z.mul_lt_mono_pos_r with (p := 2 ^ (- ec)); [assumption|].
      apply Z.le_lt_trans with (Zpos mc * A); [|assumption].
      apply Z.le_trans with (Zpos mc * scaled (Zpos mx) ex).
      * unfold scaled. rewrite Pos2Z.inj_mul.
        replace (ex + 2200) with ((ex + ec + 2200) + (- ec)) by lia.
        rewrite (pow2_split (ex + ec + 2200) (- ec)) by lia.
        apply Z.eq_le_incl. ring.
      * apply Z.mul_le_mono_nonneg_l; lia.
Qed.

Lemma shiftl_cases (m sh : Z) :
  0 <= sh ->
  match sh with
  | Zpos _ => Z.shiftl m sh
  | Z0 => m
  | Zneg _ => 0
  end = m * 2 ^ sh.
Proof.
  intros Hsh. destruct sh as [|p|p]; [lia | | lia].
  apply Z.shiftl_mul_pow2. lia.
Qed.

(** [x / c] for a constant [c = mc * 2^ec] with [ec <= 0] *)
Lemma SFdiv_within (x : spec_float) (sc : bool) (mc : positive) (ec : Z)
    (A k g : Z) :
  valid_binary x = true -> valid_binary (S754_finite sc mc ec) = true ->
  0 <= A -> rounds_within x A -> ec <= 0 ->
  0 < k < 2 ^ 53 -> -1074 <= g <= 971 ->
  A * 2 ^ (- ec) < Zpos mc * scaled k g ->
  rounds_within (SF64div x (S754_finite sc mc ec)) (scaled k g).
Proof.
  intros Hvx Hvc HA Hx Hec Hk Hg Hlt.
  destruct x as [sx|sx| |sx mx ex]; simpl in Hx; try contradiction.
  - exact I.
  - unfold SF64div, SFdiv, SFdiv_core_binary.
    destruct (valid_finite _ _ _ Hvx) as (Hex & Hdx & Hnx & _).
    destruct (valid_finite _ _ _ Hvc) as (Hecb & Hdc & Hnc & _).
    set (d1 := Zdigits2 (Zpos mx)) in *.
    set (d2 := Zdigits2 (Zpos mc)) in *.
    assert (Hd1 : 0 < d1) by (unfold d1; simpl; lia).
    assert (Hd2 : 0 < d2) by (unfold d2; simpl; lia).
    set (e' := Z.min (fexp prec emax (d1 + ex - (d2 + ec))) (ex - ec)).
    set (sh := ex - ec - e').
    assert (Hsh : 0 <= sh) by (unfold sh, e'; lia).
    set (m' := match sh with
               | Zpos _ => Z.shiftl (Zpos mx) sh
               | Z0 => Zpos mx
               | Zneg _ => 0
               end).
    assert (Hm' : m' = Zpos mx * 2 ^ sh) by (apply shiftl_cases, Hsh).
    clearbody m'.
    pose proof (Z_div_mod m' (Zpos mc) ltac:(lia)) as Hdm.
    destruct (Z.div_eucl m' (Zpos mc)) as [q r].
    destruct Hdm as [Hdiv Hr].
    pose proof (pow2_pos sh Hsh) as H2sh.
    assert (Hq0 : 0 <= q) by nia.
    assert (He'lo : -2200 <= e') by (unfold e'; rewrite fexp_eq; lia).
    assert (H2 : 0 < 2 ^ (- ec)) by (apply pow2_pos; lia).
    apply rounds_within_aux; try assumption.
    + (* the quotient has enough digits *)
      rewrite fexp_eq.
      destruct (Z_le_gt_dec e' (-1074)) as [Hlow | Hhigh]; [lia|].
      assert (Hshlo : 53 - d1 + d2 <= sh)
        by (unfold sh, e' in *; rewrite fexp_eq in *; lia).
      assert (Hq : 2 ^ (d1 - 1 + sh - d2) <= q).
      { destruct (Zdigits2_bounds mx) as [Hlo _]. fold d1 in Hlo.
        destruct (Zdigits2_bounds mc) as [_ Hhi]. fold d2 in Hhi.
        assert (Hpow : 2 ^ (d1 - 1 + sh - d2) * 2 ^ d2 <= m').
        { rewrite <- pow2_split by lia.
          replace (d1 - 1 + sh - d2 + d2) with ((d1 - 1) + sh) by lia.
          rewrite pow2_split by lia. rewrite Hm'.
          apply Z.mul_le_mono_nonneg_r; lia. }
        pose proof (pow2_pos (d1 - 1 + sh - d2) ltac:(lia)) as Hp.
        nia. }
      assert (Hdq : d1 + sh - d2 <= Zdigits2 q).
      { apply Zdigits2_ge; [|lia].
        replace (d1 + sh - d2 - 1) with (d1 - 1 + sh - d2) by lia.
        assumption. }
      unfold sh in Hdq. lia.
    + (* the quotient is below the bound *)
      assert (Hqv : scaled q e' * Zpos mc <= A * 2 ^ (- ec)).
      { apply Z.le_trans with (scaled (Zpos mx) ex * 2 ^ (- ec)).
        - apply Z.le_trans with (scaled m' e').
          + unfold scaled.
            pose proof (pow2_pos (e' + 2200) ltac:(lia)). nia.
          + rewrite Hm', scaled_shift by lia. unfold scaled.
            replace (e' + sh + 2200) with ((ex + 2200) + (- ec))
              by (unfold sh; lia).
            rewrite (pow2_split (ex + 2200) (- ec)) by lia.
            apply Z.eq_le_incl. ring.
        - apply Z.mul_le_mono_nonneg_r; lia. }
      nia.
Qed.

End Binary64Rounding.

(** ** Finite numbers and their bounds *)

Section FiniteNumbers.

Local Open Scope Z_scope.

Lemma SFeqb_refl_finite (x : spec_float) (B : Z) :
  rounds_within x B -> SFeqb x x = true.
Proof.
  destruct x as [s|s| |s m e]; simpl; try contradiction; try reflexivity.
  intros _. unfold SFeqb, SFcompare.
  rewrite Z.compare_refl, Pos.compare_cont_refl. destruct s; reflexivity.
Qed.

Lemma Prim2SF_infinity : Prim2SF infinity = S754_infinity false.
Proof. reflexivity. Qed.

Lemma within_is_finite (x : float) (B : Z) :
  within x B -> is_finite x = true.
Proof.
  unfold within, is_finite, is_nan, is_infinity. intros H.
  rewrite !FloatAxioms.eqb_spec, abs_spec, Prim2SF_infinity.
  rewrite (SFeqb_refl_finite _ _ H).
  destruct (Prim2SF x) as [s|s| |s m e]; simpl in H; try contradiction;
    reflexivity.
Qed.

Lemma is_finite_within (x : float) :
  is_finite x = true -> within x max_scaled.
Proof.
  unfold within, is_finite, is_nan, is_infinity.
  rewrite !FloatAxioms.eqb_spec, abs_spec, Prim2SF_infinity.
  pose proof (Prim2SF_valid x) as Hv.
  destruct (Prim2SF x) as [s|s| |s m e]; simpl; try discriminate.
  - intros _. exact I.
  - destruct s; discriminate.
  - intros _. apply (valid_finite_max s m e Hv).
Qed.

Lemma within_mono (x : float) (A B : Z) :
  A <= B -> within x A -> within x B.
Proof. apply rounds_within_mono. Qed.

Lemma scaled_lt_971 (i j : Z) : i < j -> scaled i 971 < scaled j 971.
Proof.
  intros. unfold scaled. apply Z.mul_lt_mono_pos_r; [apply pow2_pos|]; lia.
Qed.

(** Sums and differences, with bounds counted in units of [2^971]. *)
Lemma add_within (x y : float) (i j : Z) :
  0 <= i -> 0 <= j -> i + j + 1 < 2 ^ 53 ->
  within x (scaled i 971) -> within y (scaled j 971) ->
  within (x + y)%float (scaled (i + j + 1) 971).
Proof.
  intros Hi Hj Hk Hx Hy. unfold within. rewrite add_spec.
  apply SFadd_within with (A := scaled i 971) (B := scaled j 971);
    try assumption; try apply Prim2SF_valid; try (apply scaled_nonneg; lia);
    try lia.
  rewrite <- scaled_add. apply scaled_lt_971. lia.
Qed.

Lemma sub_within (x y : float) (i j : Z) :
  0 <= i -> 0 <= j -> i + j + 1 < 2 ^ 53 ->
  within x (scaled i 971) -> within y (scaled j 971) ->
  within (x - y)%float (scaled (i + j + 1) 971).
Proof.
  intros Hi Hj Hk Hx Hy. unfold within. rewrite sub_spec.
  apply SFsub_within with (A := scaled i 971) (B := scaled j 971);
    try assumption; try apply Prim2SF_valid; try (apply scaled_nonneg; lia);
    try lia.
  rewrite <- scaled_add. apply scaled_lt_971. lia.
Qed.

(** Products and quotients by a constant [c = mc * 2^ec], [ec <= 0]. *)
Lemma mul_within (x c : float) (sc : bool) (mc : positive) (ec i k : Z) :
  Prim2SF c = S754_finite sc mc ec -> ec <= 0 ->
  0 <= i -> 0 < k < 2 ^ 53 ->
  Zpos mc * i < k * 2 ^ (- ec) ->
  within x (scaled i 971) ->
  within (x * c)%float (scaled k 971).
Proof.
  intros Hc Hec Hi Hk Hlt Hx. unfold within. rewrite mul_spec, Hc.
  apply SFmul_within with (A := scaled i 971);
    try assumption; try (rewrite <- Hc); try apply Prim2SF_valid;
    try (apply scaled_nonneg; lia); try lia.
  unfold scaled.
  pose proof (pow2_pos (971 + 2200) ltac:(lia)) as Hp.
  nia.
Qed.

Lemma div_within (x c : float) (sc : bool) (mc : positive) (ec i k : Z) :
  Prim2SF c = S754_finite sc mc ec -> ec <= 0 ->
  0 <= i -> 0 < k < 2 ^ 53 ->
  i * 2 ^ (- ec) < Zpos mc * k ->
  within x (scaled i 971) ->
  within (x / c)%float (scaled k 971).
Proof.
  intros Hc Hec Hi Hk Hlt Hx. unfold within. rewrite div_spec, Hc.
  apply SFdiv_within with (A := scaled i 971);
    try assumption; try (rewrite <- Hc); try apply Prim2SF_valid;
    try (apply scaled_nonneg; lia); try lia.
  unfold scaled.
  pose proof (pow2_pos (971 + 2200) ltac:(lia)) as Hp.
  nia.
Qed.

End FiniteNumbers.

(** ** The heuristic never overflows *)

Section HeuristicBounds.

Local Open Scope Z_scope.

Ltac closed_bound := vm_compute; first [reflexivity | discriminate].

Lemma within_24 : within 24%float (scaled 1 971).
Proof. closed_bound. Qed.

Lemma within_1 : within 1%float (scaled 1 971).
Proof. closed_bound. Qed.

Lemma within_0_5 : within 0.5%float (scaled 1 971).
Proof. closed_bound. Qed.

Lemma within_2 : within 2%float (scaled 1 971).
Proof. closed_bound. Qed.

(** every finite number other than the largest is at least one unit in
    the last place below it *)
Lemma below_max (s : bool) (m : positive) (e : Z) :
  valid_binary (S754_finite s m e) = true ->
  m <> 9007199254740991%positive \/ e <> 971 ->
  scaled (Zpos m) e <= scaled (2 ^ 53 - 2) 971.
Proof.
  intros Hv Hne. destruct (valid_finite s m e Hv) as (He & Hd & _).
  assert (Hm : Zpos m < 2 ^ 53).
  { apply Z.lt_le_trans with (2 ^ Zdigits2 (Zpos m)).
    - apply Zdigits2_upper. lia.
    - apply Z.pow_le_mono_r; lia. }
  destruct (Z.eq_dec e 971) as [-> | Hlow].
  - apply scaled_le; [lia|].
    assert (Zpos m <> 9007199254740991) by (intros H; injection H; tauto).
    change (2 ^ 53) with 9007199254740992 in *. lia.
  - apply Z.le_trans with (scaled (2 ^ 52 * 2 ^ 1) e).
    + apply scaled_le; [lia|]. change (2 ^ 52 * 2 ^ 1) with (2 ^ 53). lia.
    + rewrite scaled_shift by lia.
      apply Z.le_trans with (scaled (2 ^ 52) 971).
      * apply scaled_exp_le; lia.
      * apply scaled_le; lia.
Qed.

Lemma sub_24_below_max (o : float) (s : bool) (m : positive) (e : Z) :
  Prim2SF o = S754_finite s m e ->
  m <> 9007199254740991%positive \/ e <> 971 ->
  within (o - 24)%float max_scaled.
Proof.
  intros Ho Hne.
  pose proof (Prim2SF_valid o) as Hv. rewrite Ho in Hv.
  unfold within, max_scaled. rewrite FloatAxioms.sub_spec, Ho.
  apply SFsub_within with (A := scaled (2 ^ 53 - 2) 971) (B := scaled 24 0).
  - exact Hv.
  - apply Prim2SF_valid.
  - closed_bound.
  - closed_bound.
  - apply (below_max s m e Hv Hne).
  - closed_bound.
  - split; reflexivity.
  - split; discriminate.
  - closed_bound.
Qed.

(** [outdoorTemp - 24] is finite: below the largest number the exact
    difference stays below it, and at the largest number 24 is less than
    half a unit in the last place. *)
Lemma sub_24_within (o : float) :
  is_finite o = true -> within (o - 24)%float max_scaled.
Proof.
  intros Hfin.
  pose proof (Prim2SF_valid o) as Hv.
  pose proof (is_finite_within o Hfin) as Hw. unfold within in Hw.
  destruct (Prim2SF o) as [s|s| |s m e] eqn:Ho;
    cbn [rounds_within] in Hw; try contradiction.
  - unfold within. rewrite FloatAxioms.sub_spec, Ho. destruct s; closed_bound.
  - destruct (Pos.eq_dec m 9007199254740991) as [Hm | Hm];
      [destruct (Z.eq_dec e 971) as [He | He]|].
    + subst m e.
      assert (Heq : o = SF2Prim (S754_finite s 9007199254740991 971))
        by (rewrite <- Ho; symmetry; apply SF2Prim_Prim2SF).
      rewrite Heq. destruct s; closed_bound.
    + apply sub_24_below_max with (s := s) (m := m) (e := e);
        try assumption. right; assumption.
    + apply sub_24_below_max with (s := s) (m := m) (e := e);
        try assumption. left; assumption.
Qed.

Lemma within_not_nan (x : float) (B : Z) : within x B -> is_nan x = false.
Proof.
  intros H. apply within_is_finite in H. unfold is_finite in H.
  destruct (is_nan x); [discriminate | reflexivity].
Qed.

Lemma Math_min_within (a b : float) (B : Z) :
  within a B -> within b B -> within (Math_min a b) B.
Proof.
  intros Ha Hb. unfold Math_min.
  rewrite (within_not_nan a B Ha), (within_not_nan b B Hb). simpl.
  destruct (a <? b)%float; [assumption|].
  destruct (b <? a)%float; [assumption|].
  destruct (get_sign a); assumption.
Qed.

Lemma rounds_within_opp (x : spec_float) (B : Z) :
  rounds_within x B -> rounds_within (SFopp x) B.
Proof. destruct x; simpl; tauto. Qed.

Lemma of_int_within (s : bool) (z : Z) :
  Z.abs z < 2 ^ 53 -> within (of_int s z) (scaled 1 53).
Proof.
  intros Hz. unfold of_int.
  assert (Hf : within (of_uint63 (Uint63.of_Z (Z.abs z))) (scaled 1 53)).
  { unfold within. rewrite of_uint63_spec, Uint63.of_Z_spec.
    assert (HwB : Uint63Axioms.wB = 2 ^ 63) by reflexivity.
    rewrite HwB, Z.mod_small
      by (split; [lia | apply Z.lt_trans with (2 ^ 53); [lia | reflexivity]]).
    apply binary_normalize_bound; try lia.
    assert (Hs : scaled 1 53 = scaled (2 ^ 53) 0)
      by (symmetry; apply (scaled_shift 1 0 53); lia).
    rewrite Hs. unfold scaled.
    apply Z.mul_lt_mono_pos_r; [apply pow2_pos; lia | lia]. }
  destruct s; [|assumption].
  unfold within. rewrite opp_spec. apply rounds_within_opp. exact Hf.
Qed.

Lemma div_pow2_abs (m n : Z) (s : bool) :
  0 <= m -> 0 <= n ->
  Z.abs (cond_Zopp s m / 2 ^ n) <= m
  /\ Z.abs (- (- cond_Zopp s m / 2 ^ n)) <= m.
Proof.
  intros Hm Hn.
  pose proof (pow2_pos n Hn) as Hp.
  assert (Hpos : 0 <= m / 2 ^ n <= m).
  { split; [apply Z.div_pos; lia|].
    apply Z.div_le_upper_bound; [lia | nia]. }
  assert (Hneg : - m <= (- m) / 2 ^ n <= 0).
  { split.
    - apply Z.div_le_lower_bound; [lia | nia].
    - apply Z.div_le_upper_bound; [lia | nia]. }
  destruct s; simpl; rewrite ?Z.opp_involutive; lia.
Qed.

Lemma Math_floor_finite (x : float) :
  is_finite x = true -> is_finite (Math_floor x) = true.
Proof.
  intros Hfin. unfold Math_floor.
  pose proof (Prim2SF_valid x) as Hv.
  destruct (Prim2SF x) as [s|s| |s m e] eqn:Hx; try assumption.
  destruct (Z.leb_spec 0 e) as [|Hneg]; [assumption|].
  destruct (valid_finite s m e Hv) as (He & Hd & _).
  assert (Hm : Zpos m < 2 ^ 53).
  { apply Z.lt_le_trans with (2 ^ Zdigits2 (Zpos m)).
    - apply Zdigits2_upper. lia.
    - apply Z.pow_le_mono_r; lia. }
  apply within_is_finite with (B := scaled 1 53), of_int_within.
  destruct (div_pow2_abs (Zpos m) (- e) s) as [Hfl Hce]; lia.
Qed.

Lemma Math_ceil_finite (x : float) :
  is_finite x = true -> is_finite (Math_ceil x) = true.
Proof.
  intros Hfin. unfold Math_ceil.
  pose proof (Prim2SF_valid x) as Hv.
  destruct (Prim2SF x) as [s|s| |s m e] eqn:Hx; try assumption.
  destruct (Z.leb_spec 0 e) as [|Hneg]; [assumption|].
  destruct (valid_finite s m e Hv) as (He & Hd & _).
  assert (Hm : Zpos m < 2 ^ 53).
  { apply Z.lt_le_trans with (2 ^ Zdigits2 (Zpos m)).
    - apply Zdigits2_upper. lia.
    - apply Z.pow_le_mono_r; lia. }
  apply within_is_finite with (B := scaled 1 53), of_int_within.
  destruct (div_pow2_abs (Zpos m) (- e) s) as [Hfl Hce]; lia.
Qed.

Lemma roundIdeal_finite (x : float) :
  is_finite x = true -> is_finite (roundIdeal x) = true.
Proof.
  intros H. unfold roundIdeal.
  destruct (rem1 x <? 0.5)%float;
    [apply Math_floor_finite | apply Math_ceil_finite]; assumption.
Qed.


(** one more step by a constant of magnitude at most [2^971], or none *)
Lemma step_within (x c : float) (j : Z) :
  0 <= j -> j + 2 < 2 ^ 53 ->
  within x (scaled j 971) -> within c (scaled 1 971) ->
  within (x + c)%float (scaled (j + 2) 971)
  /\ within (x - c)%float (scaled (j + 2) 971)
  /\ within x (scaled (j + 2) 971).
Proof.
  intros Hj Hk Hx Hc.
  replace (j + 2) with (j + 1 + 1) by lia.
  repeat apply conj.
  - apply add_within; try assumption; lia.
  - apply sub_within; try assumption; lia.
  - apply within_mono with (2 := Hx).
    apply Z.lt_le_incl, scaled_lt_971. lia.
Qed.

(** The value before rounding is finite as soon as the three numbers that
    enter its arithmetic are: [humidity], [roomSize] and [indoorTemp] are
    only compared. *)
Lemma idealBeforeRounding_within (data : EnvironmentalData) :
  is_finite (outdoorTemp data) = true ->
  is_finite (occupancy data) = true ->
  is_finite (sunlightIntensity data) = true ->
  within (idealBeforeRounding data) (scaled (2 ^ 50 + 2 ^ 52 + 14) 971).
Proof.
  intros Hout Hocc Hsun.
  (* outdoor drift *)
  set (outdoorFactor := ((outdoorTemp data - 24) * 0.1)%float).
  assert (B0 : within outdoorFactor (scaled (2 ^ 50) 971)).
  { apply mul_within
      with (sc := false) (mc := 7205759403792794%positive) (ec := -56)
           (i := 2 ^ 53 - 1); try reflexivity; try lia.
    apply sub_24_within, Hout. }
  set (t1 := (24 + outdoorFactor)%float).
  assert (B1 : within t1 (scaled (1 + 2 ^ 50 + 1) 971))
    by (apply add_within; [lia | lia | lia | exact within_24 | exact B0]).
  (* humidity *)
  set (t2 := (if humidity data >? 70 then t1 - 1
              else if humidity data <? 30 then t1 + 0.5 else t1)%float).
  assert (B2 : within t2 (scaled (1 + 2 ^ 50 + 1 + 2) 971)).
  { unfold t2.
    destruct (step_within t1 1 (1 + 2 ^ 50 + 1) ltac:(lia) ltac:(lia) B1 within_1)
      as (_ & Hm & Hs).
    destruct (step_within t1 0.5 (1 + 2 ^ 50 + 1) ltac:(lia) ltac:(lia) B1 within_0_5)
      as (Hp & _ & _).
    destruct (humidity data >? 70)%float; [exact Hm|].
    destruct (humidity data <? 30)%float; assumption. }
  (* occupancy *)
  set (occupancyAdjustment := Math_min (occupancy data * 0.2) 2).
  assert (Bocc : within occupancyAdjustment (scaled (2 ^ 51) 971)).
  { apply Math_min_within.
    - apply mul_within
        with (sc := false) (mc := 7205759403792794%positive) (ec := -55)
             (i := 2 ^ 53 - 1); try reflexivity; try lia.
      apply is_finite_within, Hocc.
    - apply within_mono with (2 := within_2).
      apply Z.lt_le_incl, scaled_lt_971. lia. }
  set (t3 := (t2 - occupancyAdjustment)%float).
  assert (B3 : within t3 (scaled (1 + 2 ^ 50 + 1 + 2 + 2 ^ 51 + 1) 971))
    by (apply sub_within; [lia | lia | lia | exact B2 | exact Bocc]).
  (* weather *)
  set (t4 := (if (weatherCondition data =? "sunny")%string then t3 - 0.5
              else if (weatherCondition data =? "rainy")%string
                   || (weatherCondition data =? "cloudy")%string
              then t3 + 0.5
              else if (weatherCondition data =? "snowy")%string
                   || (weatherCondition data =? "stormy")%string
              then t3 + 1 else t3)%float).
  assert (B4 : within t4 (scaled (1 + 2 ^ 50 + 1 + 2 + 2 ^ 51 + 1 + 2) 971)).
  { unfold t4.
    destruct (step_within t3 0.5 (1 + 2 ^ 50 + 1 + 2 + 2 ^ 51 + 1) ltac:(lia) ltac:(lia) B3 within_0_5)
      as (Hp & Hm & Hs).
    destruct (step_within t3 1 (1 + 2 ^ 50 + 1 + 2 + 2 ^ 51 + 1) ltac:(lia) ltac:(lia) B3 within_1)
      as (Hp1 & _ & _).
    destruct (weatherCondition data =? "sunny")%string; [exact Hm|].
    destruct ((weatherCondition data =? "rainy")%string
              || (weatherCondition data =? "cloudy")%string); [exact Hp|].
    destruct ((weatherCondition data =? "snowy")%string
              || (weatherCondition data =? "stormy")%string); assumption. }
  (* time of day *)
  set (t5 := (if (timeOfDay data =? "morning")%string then t4 + 0.5
              else if (timeOfDay data =? "afternoon")%string then t4 - 0.5
              else if (timeOfDay data =? "night")%string then t4 + 1
              else t4)%float).
  assert (B5 : within t5
                 (scaled (1 + 2 ^ 50 + 1 + 2 + 2 ^ 51 + 1 + 2 + 2) 971)).
  { unfold t5.
    destruct (step_within t4 0.5 (1 + 2 ^ 50 + 1 + 2 + 2 ^ 51 + 1 + 2) ltac:(lia) ltac:(lia) B4 within_0_5)
      as (Hp & Hm & Hs).
    destruct (step_within t4 1 (1 + 2 ^ 50 + 1 + 2 + 2 ^ 51 + 1 + 2) ltac:(lia) ltac:(lia) B4 within_1)
      as (Hp1 & _ & _).
    destruct (timeOfDay data =? "morning")%string; [exact Hp|].
    destruct (timeOfDay data =? "afternoon")%string; [exact Hm|].
    destruct (timeOfDay data =? "night")%string; assumption. }
  (* sunlight *)
  set (sunlightAdjustment := (sunlightIntensity data / 10 * 1.5)%float).
  assert (Bsun : within sunlightAdjustment (scaled (2 ^ 51) 971)).
  { apply mul_within
      with (sc := false) (mc := 6755399441055744%positive) (ec := -52)
           (i := 2 ^ 50); try reflexivity; try lia.
    apply div_within
      with (sc := false) (mc := 5629499534213120%positive) (ec := -49)
           (i := 2 ^ 53 - 1); try reflexivity; try lia.
    apply is_finite_within, Hsun. }
  set (t6 := (t5 - sunlightAdjustment)%float).
  assert (B6 : within t6
                 (scaled (1 + 2 ^ 50 + 1 + 2 + 2 ^ 51 + 1 + 2 + 2
                          + 2 ^ 51 + 1) 971))
    by (apply sub_within; [lia | lia | lia | exact B5 | exact Bsun]).
  (* room size *)
  set (t7 := (if roomSize data >? 50 then t6 + 0.5 else t6)%float).
  assert (B7 : within t7
                 (scaled (1 + 2 ^ 50 + 1 + 2 + 2 ^ 51 + 1 + 2 + 2
                          + 2 ^ 51 + 1 + 2) 971)).
  { unfold t7.
    destruct (step_within t6 0.5 (1 + 2 ^ 50 + 1 + 2 + 2 ^ 51 + 1 + 2 + 2 + 2 ^ 51 + 1) ltac:(lia) ltac:(lia) B6 within_0_5)
      as (Hp & _ & Hs).
    destruct (roomSize data >? 50)%float; assumption. }
  (* window *)
  set (t8 := (if windowOpen data
              then if outdoorTemp data >? indoorTemp data
                   then t7 - 1 else t7 + 0.5
              else t7)%float).
  assert (B8 : within t8
                 (scaled (1 + 2 ^ 50 + 1 + 2 + 2 ^ 51 + 1 + 2 + 2
                          + 2 ^ 51 + 1 + 2 + 2) 971)).
  { unfold t8.
    destruct (step_within t7 1 (1 + 2 ^ 50 + 1 + 2 + 2 ^ 51 + 1 + 2 + 2 + 2 ^ 51 + 1 + 2) ltac:(lia) ltac:(lia) B7 within_1)
      as (_ & Hm & Hs).
    destruct (step_within t7 0.5 (1 + 2 ^ 50 + 1 + 2 + 2 ^ 51 + 1 + 2 + 2 + 2 ^ 51 + 1 + 2) ltac:(lia) ltac:(lia) B7 within_0_5)
      as (Hp & _ & _).
    destruct (windowOpen data); [|exact Hs].
    destruct (outdoorTemp data >? indoorTemp data)%float; assumption. }
  change (idealBeforeRounding data) with t8.
  apply within_mono with (2 := B8).
  apply scaled_le; lia.
Qed.

End HeuristicBounds.

(** ** The local heuristic *)

(** C1: on scenario 1 [calculateIdealTemperature] returns 22, the value of
    the hand computation 24 + 0.6 - 0.4 - 0.5 - 0.5 - 1.05 = 22.15 rounded
    by the floor branch (its decimal part is below 0.5, in the code as by
    hand). *)
Theorem scenario1_returns_22 :
  calculateIdealTemperature scenario1 = 22
  /\ (rem1 (idealBeforeRounding scenario1) <? 0.5) = true
  /\ Math_floor (idealBeforeRounding scenario1) = 22
  /\ (spec_scenario1_by_hand == 2215 # 100)%Q
  /\ Qfloor spec_scenario1_by_hand = 22%Z
  /\ (spec_scenario1_by_hand - inject_Z (Qfloor spec_scenario1_by_hand)
      < 1 # 2)%Q.
Proof.
  repeat split; try (vm_compute; reflexivity).
Qed.

(** C2: the last step takes [decimal = ideal % 1] and returns the floor of
    [ideal] when [decimal < 0.5] and its ceiling otherwise; every state whose
    value before rounding is 24.5 gives 25, and 24.49999 gives 24. *)
Theorem rounding_step (data : EnvironmentalData) (ideal : float)
    (Hideal : idealBeforeRounding data = ideal) :
  calculateIdealTemperature data
  = (if rem1 ideal <? 0.5 then Math_floor ideal else Math_ceil ideal)
  /\ (ideal = 24.5 ->
      (rem1 ideal <? 0.5) = false /\ calculateIdealTemperature data = 25)
  /\ (ideal = 24.49999 ->
      (rem1 ideal <? 0.5) = true /\ calculateIdealTemperature data = 24).
Proof.
  unfold calculateIdealTemperature, roundIdeal. rewrite Hideal.
  split; [reflexivity|].
  split; intros ->; split; vm_compute; reflexivity.
Qed.

Lemma rounding_step_witness :
  calculateIdealTemperature state_24_5 = 25
  /\ calculateIdealTemperature state_24_49999 = 24.
Proof.
  split.
  - apply (rounding_step state_24_5 24.5); vm_compute; reflexivity.
  - apply (rounding_step state_24_49999 24.49999); vm_compute; reflexivity.
Defined.

(** C10: with the window closed the result does not depend on [indoorTemp];
    with the window open it depends on [indoorTemp] only through the
    comparison [outdoorTemp > indoorTemp]. *)
Theorem indoorTemp_only_through_window (d1 d2 : EnvironmentalData)
    (Hout : outdoorTemp d1 = outdoorTemp d2)
    (Hhum : humidity d1 = humidity d2)
    (Hocc : occupancy d1 = occupancy d2)
    (Hwea : weatherCondition d1 = weatherCondition d2)
    (Htim : timeOfDay d1 = timeOfDay d2)
    (Hsun : sunlightIntensity d1 = sunlightIntensity d2)
    (Hroo : roomSize d1 = roomSize d2)
    (Hwin : windowOpen d1 = windowOpen d2) :
  (windowOpen d1 = false ->
   calculateIdealTemperature d1 = calculateIdealTemperature d2)
  /\ ((outdoorTemp d1 >? indoorTemp d1) = (outdoorTemp d2 >? indoorTemp d2) ->
      calculateIdealTemperature d1 = calculateIdealTemperature d2).
Proof.
  unfold calculateIdealTemperature, idealBeforeRounding.
  rewrite <- Hout, <- Hhum, <- Hocc, <- Hwea, <- Htim, <- Hsun, <- Hroo, <- Hwin.
  split.
  - intros ->. reflexivity.
  - intros ->. reflexivity.
Qed.

Lemma indoorTemp_only_through_window_witness :
  calculateIdealTemperature scenario1
  = calculateIdealTemperature
      {| indoorTemp := -40; outdoorTemp := 30; humidity := 60; occupancy := 2;
         weatherCondition := "sunny"; timeOfDay := "afternoon";
         sunlightIntensity := 7; roomSize := 25; windowOpen := false |}.
Proof.
  apply (indoorTemp_only_through_window scenario1); reflexivity.
Defined.

(** C6: [calculateIdealTemperature] is total (a function of the embedding,
    so it returns on every input and throws on none), and on every state
    whose numeric fields are finite, whatever their sign and size and
    whatever the two tags, its result is a finite number: not NaN and not
    an infinity. *)
Theorem calculateIdealTemperature_finite (data : EnvironmentalData)
    (Hfinite : finiteFields data) :
  is_finite (calculateIdealTemperature data) = true
  /\ is_nan (calculateIdealTemperature data) = false
  /\ is_infinity (calculateIdealTemperature data) = false.
Proof.
  destruct Hfinite as (_ & Hout & _ & Hocc & Hsun & _).
  assert (H : is_finite (calculateIdealTemperature data) = true).
  { unfold calculateIdealTemperature.
    apply roundIdeal_finite.
    apply within_is_finite with (1 := idealBeforeRounding_within data Hout Hocc Hsun). }
  split; [exact H|].
  unfold is_finite in H.
  destruct (is_nan _), (is_infinity _); try discriminate. split; reflexivity.
Qed.

Lemma calculateIdealTemperature_finite_witness :
  is_finite (calculateIdealTemperature extremeState) = true.
Proof.
  apply (calculateIdealTemperature_finite extremeState).
  repeat split; vm_compute; reflexivity.
Defined.

(** ** The mapping of [handlePredict] *)

Lemma In_includes (a : list string) (s : string) :
  includes a (Some s) = true <-> In s a.
Proof.
  simpl. rewrite existsb_exists. split.
  - intros [x [Hin Heq]]. apply String.eqb_eq in Heq. now subst.
  - intros Hin. exists s. split; [assumption | apply String.eqb_refl].
Qed.

(** C3: the weather mapping is total.  The label found in [weatherOptions]
    is used unchanged when it is one of the five categories; Partly Cloudy
    and Windy give Cloudy; Stormy gives Rainy; a tag with no option gives
    Cloudy; the result is always one of the five categories; and each of the
    eight defined tags has an option whose label one of the explicit
    branches handles, with the results listed. *)
Theorem weather_mapping_total (d : EnvironmentalData) :
  (forall opt, selected weatherOptions (weatherCondition d) = Some opt ->
     In (label opt) weatherCategories -> weatherConditionApi d = label opt)
  /\ (forall opt, selected weatherOptions (weatherCondition d) = Some opt ->
        label opt = "Partly Cloudy" \/ label opt = "Windy" ->
        weatherConditionApi d = "Cloudy")
  /\ (forall opt, selected weatherOptions (weatherCondition d) = Some opt ->
        label opt = "Stormy" -> weatherConditionApi d = "Rainy")
  /\ (selected weatherOptions (weatherCondition d) = None ->
      weatherConditionApi d = "Cloudy")
  /\ In (weatherConditionApi d) weatherCategories
  /\ (forall tag, In tag weatherTags ->
        exists opt, selected weatherOptions tag = Some opt
          /\ value opt = tag
          /\ (In (label opt) weatherCategories
              \/ label opt = "Partly Cloudy" \/ label opt = "Windy"
              \/ label opt = "Stormy"))
  /\ map (fun tag => weatherConditionApi (withWeather d tag)) weatherTags
     = ["Sunny"; "Cloudy"; "Cloudy"; "Rainy"; "Rainy"; "Snowy"; "Cloudy";
        "Foggy"].
Proof.
  unfold weatherConditionApi, selected.
  repeat apply conj.
  - intros opt -> Hin.
    apply In_includes in Hin. unfold weatherCategories in Hin.
    now rewrite Hin.
  - intros opt -> [H | H]; rewrite H; reflexivity.
  - intros opt -> H; rewrite H; reflexivity.
  - intros ->. reflexivity.
  - destruct (find _ weatherOptions) as [opt|]; [|simpl; tauto].
    destruct (includes _ (Some (label opt))) eqn:Hinc.
    + apply In_includes in Hinc. exact Hinc.
    + destruct (_ || _); [simpl; tauto|].
      destruct (_ =? _)%string; simpl; tauto.
  - intros tag Hin. simpl in Hin.
    repeat (destruct Hin as [<- | Hin];
            [eexists; split; [reflexivity | split; [reflexivity | simpl; tauto]]|]).
    contradiction.
  - reflexivity.
Qed.

Lemma weather_mapping_total_witness :
  weatherConditionApi (withWeather scenario1 "stormy") = "Rainy"
  /\ weatherConditionApi (withWeather scenario1 "tornado") = "Cloudy".
Proof.
  split.
  - destruct (weather_mapping_total (withWeather scenario1 "stormy"))
      as (_ & _ & H & _).
    apply (H (mkOption "stormy" "Stormy")); reflexivity.
  - destruct (weather_mapping_total (withWeather scenario1 "tornado"))
      as (_ & _ & _ & H & _).
    apply H; reflexivity.
Defined.

(** C8: the time mapping takes the first word of the label found in
    [timeOptions]; that word is the category when it is one of the four,
    otherwise, and when the tag has no option, the category is Afternoon;
    the result is always one of the four categories; each of the four
    defined tags has an option whose first word is a category, and they map
    one to one. *)
Theorem time_mapping_total (d : EnvironmentalData) :
  (forall opt w, selected timeOptions (timeOfDay d) = Some opt ->
     nth_error (split " " (label opt)) 0 = Some w ->
     In w timeCategories -> timeOfDayApi d = w)
  /\ (forall opt w, selected timeOptions (timeOfDay d) = Some opt ->
        nth_error (split " " (label opt)) 0 = Some w ->
        ~ In w timeCategories -> timeOfDayApi d = "Afternoon")
  /\ (selected timeOptions (timeOfDay d) = None ->
      timeOfDayApi d = "Afternoon")
  /\ In (timeOfDayApi d) timeCategories
  /\ (forall tag, In tag timeTags ->
        exists opt w, selected timeOptions tag = Some opt
          /\ value opt = tag
          /\ nth_error (split " " (label opt)) 0 = Some w
          /\ In w timeCategories)
  /\ map (fun tag => timeOfDayApi (withTime d tag)) timeTags
     = ["Morning"; "Afternoon"; "Evening"; "Night"]
  /\ NoDup (map (fun tag => timeOfDayApi (withTime d tag)) timeTags).
Proof.
  unfold timeOfDayApi, selected.
  repeat apply conj.
  - intros opt w -> -> Hin.
    apply In_includes in Hin. unfold timeCategories in Hin.
    now rewrite Hin.
  - intros opt w -> -> Hnin.
    destruct (includes _ (Some w)) eqn:Hinc; [|reflexivity].
    apply In_includes in Hinc. contradiction.
  - intros ->. reflexivity.
  - destruct (find _ timeOptions) as [opt|]; [|simpl; tauto].
    destruct (nth_error _ 0) as [w|]; [|simpl; tauto].
    destruct (includes _ (Some w)) eqn:Hinc.
    + apply In_includes in Hinc. exact Hinc.
    + simpl; tauto.
  - intros tag Hin. simpl in Hin.
    repeat (destruct Hin as [<- | Hin];
            [eexists; eexists; split; [reflexivity |
               split; [reflexivity | split; [reflexivity | simpl; tauto]]]|]).
    contradiction.
  - reflexivity.
  - simpl. repeat constructor; simpl; intuition discriminate.
Qed.

Lemma time_mapping_total_witness :
  timeOfDayApi (withTime scenario1 "night") = "Night"
  /\ timeOfDayApi (withTime scenario1 "noon") = "Afternoon".
Proof.
  split.
  - destruct (time_mapping_total (withTime scenario1 "night")) as (H & _).
    apply (H (mkOption "night" "Night (10PM-6AM)") "Night");
      [reflexivity | reflexivity | simpl; tauto].
  - destruct (time_mapping_total (withTime scenario1 "noon"))
      as (_ & _ & H & _).
    apply H; reflexivity.
Defined.

(** C7: room sizes below 15 are Small, from 15 up to but not including 30
    Medium, and from 30 on Large; 14.999 is Small, 15 and 29.999 are Medium,
    30 is Large. *)
Theorem room_size_buckets (d : EnvironmentalData) :
  ((roomSize d <? 15) = true -> roomSizeApi d = "Small")
  /\ ((15 <=? roomSize d) = true -> (roomSize d <? 30) = true ->
      roomSizeApi d = "Medium")
  /\ ((30 <=? roomSize d) = true -> roomSizeApi d = "Large")
  /\ roomSizeApi (withRoomSize d 14.999) = "Small"
  /\ roomSizeApi (withRoomSize d 15) = "Medium"
  /\ roomSizeApi (withRoomSize d 29.999) = "Medium"
  /\ roomSizeApi (withRoomSize d 30) = "Large".
Proof.
  unfold roomSizeApi.
  repeat apply conj; try reflexivity.
  - intros ->. reflexivity.
  - intros H15 H30. rewrite (leb_ltb_false _ _ H15), H30. reflexivity.
  - intros H30.
    rewrite (ltb_leb_false 15 30 (roomSize d) eq_refl H30).
    rewrite (leb_ltb_false _ _ H30). reflexivity.
Qed.

Lemma room_size_buckets_witness :
  roomSizeApi (withRoomSize scenario1 7.5) = "Small"
  /\ roomSizeApi (withRoomSize scenario1 22) = "Medium"
  /\ roomSizeApi (withRoomSize scenario1 1e300) = "Large".
Proof.
  repeat apply conj.
  - destruct (room_size_buckets (withRoomSize scenario1 7.5)) as (H & _).
    apply H. reflexivity.
  - destruct (room_size_buckets (withRoomSize scenario1 22)) as (_ & H & _).
    apply H; reflexivity.
  - destruct (room_size_buckets (withRoomSize scenario1 1e300))
      as (_ & _ & H & _).
    apply H. reflexivity.
Defined.

(** ** The remote client and [handlePredict] *)

Lemma run_app (st : State) (l1 l2 : list Effect) :
  run st (l1 ++ l2)%list = run (run st l1) l2.
Proof. apply fold_left_app. Qed.

Lemma handlePredict_shape (host : Host) (fetch : Fetch) (st : State) :
  exists result : list Effect,
    handlePredict host fetch st
    = ([SetIsLoading true; SetError None; SetPredictedTemperature JSNull;
        CallPrediction (apiInput (environmentalData st))]
       ++ result ++ [SetIsLoading false])%list
    /\ (result = match getIdealTemperaturePrediction host fetch
                         (apiInput (environmentalData st)) with
                 | inr response =>
                     match get host response "predicted_ideal_temperature" with
                     | inr v => [SetPredictedTemperature v]
                     | inl err => catchClause err
                     end
                 | inl err => catchClause err
                 end).
Proof. eexists. split; reflexivity. Qed.

Lemma error_after_catch (err : JSError) (st : State) (b : bool) :
  error (run st (catchClause err ++ [SetIsLoading b])%list)
  = Some (if (message err =? "")%string
          then "Failed to get prediction. Please try again."
          else message err).
Proof. reflexivity. Qed.

Lemma clientMessage_of_rejection (host : Host) (fetch : Fetch) (st : State)
    (err : JSError) :
  getIdealTemperaturePrediction host fetch (apiInput (environmentalData st))
  = inl err ->
  clientMessage host fetch st
  = Some (if (message err =? "")%string
          then "Failed to get prediction. Please try again."
          else message err).
Proof.
  intros H. unfold clientMessage, handlePredict. rewrite H.
  rewrite !run_app. apply error_after_catch.
Qed.

(** C5: a response that is not [ok], with a body that is an object whose
    [error] is a (non-empty) message, makes the client fail with that message
    verbatim, and that is the message the caller shows; status 400 with
    [{error:"invalid payload"}] gives "invalid payload"; without an [error]
    member the message is the generic one ending in the status code. *)
Theorem server_error_verbatim (host : Host) (fetch : Fetch) (st : State)
    (response : Response) (members : list (string * JSValue))
    (Hfetch : fetch (predictRequest (apiInput (environmentalData st)))
              = Resolved response)
    (Hok : ok response = false)
    (Hjson : json response = inr (JSObject members)) :
  (forall msg, lookup "error" members = Some (JSString msg) -> msg <> "" ->
     getIdealTemperaturePrediction host fetch (apiInput (environmentalData st))
     = inl (mkError msg)
     /\ clientMessage host fetch st = Some msg)
  /\ (lookup "error" members = None ->
      getIdealTemperaturePrediction host fetch (apiInput (environmentalData st))
      = inl (mkError ("API request failed with status "
                      ++ decimal (status response)))
      /\ clientMessage host fetch st
         = Some ("API request failed with status "
                 ++ decimal (status response)))
  /\ (response = response400 ->
      clientMessage host fetch st = Some "invalid payload").
Proof.
  assert (Hmsg : forall msg,
             lookup "error" members = Some (JSString msg) -> msg <> "" ->
             getIdealTemperaturePrediction host fetch
               (apiInput (environmentalData st)) = inl (mkError msg)
             /\ clientMessage host fetch st = Some msg).
  { intros msg Hlook Hne.
    assert (Hget : getIdealTemperaturePrediction host fetch
                     (apiInput (environmentalData st)) = inl (mkError msg)).
    { unfold getIdealTemperaturePrediction, tryBlock.
      rewrite Hfetch, Hok, Hjson. simpl. rewrite Hlook.
      unfold or_else. simpl.
      destruct (String.eqb_spec msg ""); [contradiction | reflexivity]. }
    split; [exact Hget|].
    rewrite (clientMessage_of_rejection _ _ _ _ Hget). simpl.
    destruct (String.eqb_spec msg ""); [contradiction | reflexivity]. }
  repeat apply conj.
  - exact Hmsg.
  - intros Hlook.
    assert (Hget : getIdealTemperaturePrediction host fetch
                     (apiInput (environmentalData st))
                   = inl (mkError ("API request failed with status "
                                   ++ decimal (status response)))).
    { unfold getIdealTemperaturePrediction, tryBlock.
      rewrite Hfetch, Hok, Hjson. simpl. rewrite Hlook. reflexivity. }
    split; [exact Hget|].
    rewrite (clientMessage_of_rejection _ _ _ _ Hget). reflexivity.
  - intros ->. injection Hjson as <-.
    apply (Hmsg "invalid payload"); [reflexivity | discriminate].
Qed.

Lemma server_error_verbatim_witness :
  clientMessage exampleHost (respondsWith response400) initialState
  = Some "invalid payload"
  /\ clientMessage exampleHost
       (respondsWith {| ok := false; status := 503;
                        json := inr (JSObject []) |}) initialState
     = Some "API request failed with status 503".
Proof.
  split.
  - apply (server_error_verbatim exampleHost (respondsWith response400)
             initialState response400
             [("error", JSString "invalid payload")]);
      reflexivity.
  - apply (server_error_verbatim exampleHost
             (respondsWith {| ok := false; status := 503;
                              json := inr (JSObject []) |})
             initialState
             {| ok := false; status := 503; json := inr (JSObject []) |} []);
      reflexivity.
Defined.

(** C4 as stated fails: on status 200 with a body that is not JSON the
    caller shows the message of the [SyntaxError], not the generic
    unknown-error message. *)
Lemma malformed_body_not_unknown_error :
  getIdealTemperaturePrediction exampleHost (respondsWith response200_html)
    (apiInput (environmentalData initialState))
  = inl syntaxError
  /\ clientMessage exampleHost (respondsWith response200_html) initialState
     = Some "Unexpected token < in JSON at position 0"
  /\ clientMessage exampleHost (respondsWith response200_html) initialState
     <> Some unknownErrorMessage.
Proof.
  repeat apply conj; try reflexivity. discriminate.
Qed.

(** C4, amended: on an [ok] response whose body does not parse,
    [response.json()] rejects with an [Error] that the client throws again
    unchanged, so the caller shows that error's own message (its fallback
    text when the message is empty), the busy flag is cleared and no
    prediction is set; the generic unknown-error message is produced exactly
    when what the [try] block threw is not an [Error], which only a rejection
    of [fetch] itself can be. *)
Theorem malformed_body_rethrown (host : Host) (fetch : Fetch) (st : State)
    (response : Response) (e : JSError)
    (Hfetch : fetch (predictRequest (apiInput (environmentalData st)))
              = Resolved response)
    (Hok : ok response = true)
    (Hjson : json response = inl e) :
  getIdealTemperaturePrediction host fetch (apiInput (environmentalData st))
  = inl e
  /\ clientMessage host fetch st
     = Some (if (message e =? "")%string
             then "Failed to get prediction. Please try again."
             else message e)
  /\ isLoading (run st (handlePredict host fetch st)) = false
  /\ predictedTemperature (run st (handlePredict host fetch st)) = JSNull
  /\ (forall fetch' data v,
        tryBlock host fetch' data = inl (ThrownOther v) <->
        fetch' (predictRequest data) = Rejected (ThrownOther v))
  /\ (forall fetch' data v,
        fetch' (predictRequest data) = Rejected (ThrownOther v) ->
        getIdealTemperaturePrediction host fetch' data
        = inl (mkError unknownErrorMessage)).
Proof.
  assert (Hget : getIdealTemperaturePrediction host fetch
                   (apiInput (environmentalData st)) = inl e).
  { unfold getIdealTemperaturePrediction, tryBlock.
    rewrite Hfetch, Hok, Hjson. reflexivity. }
  repeat apply conj.
  - exact Hget.
  - apply clientMessage_of_rejection, Hget.
  - unfold handlePredict. rewrite Hget. reflexivity.
  - unfold handlePredict. rewrite Hget. reflexivity.
  - intros fetch' data v. unfold tryBlock. split.
    + destruct (fetch' (predictRequest data)) as [t | r].
      * intros H. injection H as ->. reflexivity.
      * destruct (negb (ok r)), (json r) as [e' | errorData];
          try discriminate.
        destruct (get host errorData "error"); discriminate.
    + intros ->. reflexivity.
  - intros fetch' data v H.
    unfold getIdealTemperaturePrediction, tryBlock. rewrite H. reflexivity.
Qed.

Lemma malformed_body_rethrown_witness :
  getIdealTemperaturePrediction exampleHost (respondsWith response200_html)
    (apiInput (environmentalData initialState))
  = inl syntaxError.
Proof.
  apply (malformed_body_rethrown exampleHost (respondsWith response200_html)
           initialState response200_html syntaxError); reflexivity.
Defined.

(** C9: every run of [handlePredict] sets the busy flag first, before the
    call of the remote client, and clears it last, whatever the call gives:
    between the two there is one call and no other write of the flag, the
    flag is set when the call is made and clear when the handler is done. *)
Theorem busy_flag_released (host : Host) (fetch : Fetch) (st : State) :
  exists result : list Effect,
    handlePredict host fetch st
    = ([SetIsLoading true; SetError None; SetPredictedTemperature JSNull;
        CallPrediction (apiInput (environmentalData st))]
       ++ result ++ [SetIsLoading false])%list
    /\ (forall eff, In eff result ->
          match eff with
          | SetIsLoading _ | CallPrediction _ => False
          | _ => True
          end)
    /\ isLoading
         (run st [SetIsLoading true; SetError None;
                  SetPredictedTemperature JSNull]) = true
    /\ isLoading (run st (handlePredict host fetch st)) = false.
Proof.
  destruct (handlePredict_shape host fetch st) as (result & Heq & Hres).
  exists result. rewrite Heq.
  repeat apply conj.
  - reflexivity.
  - intros eff Hin. subst result.
    destruct (getIdealTemperaturePrediction _ _ _) as [err | response];
      [| destruct (get host response _) as [err | v]];
      simpl in Hin; intuition (subst; exact I).
  - reflexivity.
  - rewrite app_assoc, run_app. reflexivity.
Qed.

(** * Further properties of the remote path *)

Lemma weatherConditionApi_category (d : EnvironmentalData) :
  In (weatherConditionApi d) weatherCategories.
Proof.
  unfold weatherConditionApi.
  destruct (find _ weatherOptions) as [opt|]; [|simpl; tauto].
  destruct (includes _ (Some (label opt))) eqn:Hinc.
  - apply In_includes in Hinc. exact Hinc.
  - destruct (_ || _); [simpl; tauto|].
    destruct (_ =? _)%string; simpl; tauto.
Qed.

Lemma timeOfDayApi_category (d : EnvironmentalData) :
  In (timeOfDayApi d) timeCategories.
Proof.
  unfold timeOfDayApi.
  destruct (find _ timeOptions) as [opt|]; [|simpl; tauto].
  destruct (nth_error _ 0) as [w|]; [|simpl; tauto].
  destruct (includes _ (Some w)) eqn:Hinc.
  - apply In_includes in Hinc. exact Hinc.
  - simpl; tauto.
Qed.

(** X1: the request body always has the shape [PredictionInput] declares:
    the four categorical fields are in their unions whatever the state
    (the casts of lines 41 and 54 are safe), and the five numbers are the
    state's, unchanged. *)
Theorem apiInput_well_typed (d : EnvironmentalData) :
  In (Weather_Condition (apiInput d)) weatherCategories
  /\ In (Time_of_Day (apiInput d)) timeCategories
  /\ In (Room_Size (apiInput d)) ["Small"; "Medium"; "Large"]
  /\ In (Window_State (apiInput d)) ["Open"; "Closed"]
  /\ Indoor_Temperature (apiInput d) = indoorTemp d
  /\ Outdoor_Temperature (apiInput d) = outdoorTemp d
  /\ Humidity (apiInput d) = humidity d
  /\ Occupancy (apiInput d) = occupancy d
  /\ Sunlight_Intensity (apiInput d) = sunlightIntensity d.
Proof.
  repeat apply conj; try reflexivity.
  - apply weatherConditionApi_category.
  - apply timeOfDayApi_category.
  - simpl. unfold roomSizeApi.
    destruct (roomSize d <? 15); [tauto|].
    destruct (roomSize d <? 30); tauto.
  - simpl. destruct (windowOpen d); tauto.
Qed.

Section RemotePath.

Variable host : Host.
Variable fetch : Fetch.
Variable st : State.

Let input := apiInput (environmentalData st).
Let final := run st (handlePredict host fetch st).

(** X2: on an [ok] response whose body is an object, the caller ends with
    the member [predicted_ideal_temperature] of that body as its predicted
    temperature ([undefined] when the body has no such member), no error,
    and the busy flag clear; the client returns the body as it is. *)
Theorem prediction_success (response : Response)
    (members : list (string * JSValue))
    (Hfetch : fetch (predictRequest input) = Resolved response)
    (Hok : ok response = true)
    (Hjson : json response = inr (JSObject members)) :
  getIdealTemperaturePrediction host fetch input = inr (JSObject members)
  /\ predictedTemperature final
     = match lookup "predicted_ideal_temperature" members with
       | Some v => v
       | None => JSUndefined
       end
  /\ error final = None
  /\ isLoading final = false.
Proof.
  assert (Hget : getIdealTemperaturePrediction host fetch input
                 = inr (JSObject members)).
  { unfold getIdealTemperaturePrediction, tryBlock.
    rewrite Hfetch, Hok, Hjson. reflexivity. }
  subst final. unfold handlePredict. fold input. rewrite Hget.
  repeat apply conj; reflexivity.
Qed.

(** X3: whatever the server does, [handlePredict] ends with either an
    error message and no prediction, or no error; it never leaves both an
    error and a prediction, and it writes neither the environmental data,
    nor the dark mode, nor the custom temperature. *)
Theorem handlePredict_outcome :
  (error final = None \/ predictedTemperature final = JSNull)
  /\ (forall err,
        getIdealTemperaturePrediction host fetch input = inl err ->
        error final <> None /\ predictedTemperature final = JSNull)
  /\ environmentalData final = environmentalData st
  /\ darkMode final = darkMode st
  /\ customTemperature final = customTemperature st
  /\ isLoading final = false.
Proof.
  subst final. unfold handlePredict. fold input.
  destruct (getIdealTemperaturePrediction host fetch input)
    as [err | response] eqn:Hget.
  - repeat apply conj; try reflexivity.
    + right. reflexivity.
    + intros err' _. split; [discriminate | reflexivity].
  - destruct (get host response "predicted_ideal_temperature") as [err | v].
    + repeat apply conj; try reflexivity.
      * right. reflexivity.
      * intros err' H. discriminate.
    + repeat apply conj; try reflexivity.
      * left. reflexivity.
      * intros err' H. discriminate.
Qed.

(** X4: an [ok] response whose body is the JSON value [null] does not
    crash the caller: reading the prediction raises a [TypeError] inside
    the [try], which is shown like any other error (with the caller's
    fallback text when the host's message is empty), and no prediction is
    set. *)
Theorem ok_with_null_body (response : Response)
    (Hfetch : fetch (predictRequest input) = Resolved response)
    (Hok : ok response = true)
    (Hjson : json response = inr JSNull) :
  getIdealTemperaturePrediction host fetch input = inr JSNull
  /\ error final
     = Some (if (nullReadMessage host "predicted_ideal_temperature" =? "")%string
             then "Failed to get prediction. Please try again."
             else nullReadMessage host "predicted_ideal_temperature")
  /\ predictedTemperature final = JSNull
  /\ isLoading final = false.
Proof.
  assert (Hget : getIdealTemperaturePrediction host fetch input = inr JSNull).
  { unfold getIdealTemperaturePrediction, tryBlock.
    rewrite Hfetch, Hok, Hjson. reflexivity. }
  subst final. unfold handlePredict. fold input. rewrite Hget.
  repeat apply conj; reflexivity.
Qed.

(** X5: on a response that is not [ok], a body that does not parse
    surfaces the parse error itself, not the status; and a body whose
    [error] is missing, [null], [false], [0] or the empty string (or that is
    no object at all, [null] apart) gives the generic message with the
    status code. *)
Theorem error_status_other_bodies (response : Response)
    (Hfetch : fetch (predictRequest input) = Resolved response)
    (Hok : ok response = false) :
  (forall e, json response = inl e ->
     getIdealTemperaturePrediction host fetch input = inl e)
  /\ (forall errorData err,
        json response = inr errorData ->
        get host errorData "error" = inr err ->
        ToBoolean err = false ->
        getIdealTemperaturePrediction host fetch input
        = inl (mkError ("API request failed with status "
                        ++ decimal (status response))))
  /\ (forall members,
        json response = inr (JSObject members) ->
        lookup "error" members = Some (JSString "") ->
        getIdealTemperaturePrediction host fetch input
        = inl (mkError ("API request failed with status "
                        ++ decimal (status response)))).
Proof.
  unfold getIdealTemperaturePrediction, tryBlock. rewrite Hfetch, Hok. simpl.
  repeat apply conj.
  - intros e ->. reflexivity.
  - intros errorData err -> -> Hfalsy. unfold or_else. rewrite Hfalsy.
    reflexivity.
  - intros members -> Hlook. simpl. rewrite Hlook. reflexivity.
Qed.

(** X6: when [fetch] itself fails (no response), an [Error] is passed on
    with its own message, and only a thrown value that is no [Error] is
    replaced by the unknown-error message; either way the caller shows a
    message, sets no prediction and clears the busy flag. *)
Theorem network_failure (t : Thrown)
    (Hfetch : fetch (predictRequest input) = Rejected t) :
  getIdealTemperaturePrediction host fetch input
  = inl (match t with
         | ThrownError e => e
         | ThrownOther _ => mkError unknownErrorMessage
         end)
  /\ error final <> None
  /\ predictedTemperature final = JSNull
  /\ isLoading final = false.
Proof.
  assert (Hget : getIdealTemperaturePrediction host fetch input
                 = inl (match t with
                        | ThrownError e => e
                        | ThrownOther _ => mkError unknownErrorMessage
                        end)).
  { unfold getIdealTemperaturePrediction, tryBlock. rewrite Hfetch.
    destruct t; reflexivity. }
  subst final. unfold handlePredict. fold input. rewrite Hget.
  repeat apply conj; try reflexivity. discriminate.
Qed.

End RemotePath.

Lemma prediction_success_witness :
  predictedTemperature
    (run initialState
       (handlePredict exampleHost (respondsWith successResponse) initialState))
  = JSNumber 23.5.
Proof.
  apply (prediction_success exampleHost (respondsWith successResponse)
           initialState successResponse
           [("predicted_ideal_temperature", JSNumber 23.5);
            ("status", JSString "success")]);
    reflexivity.
Defined.

Lemma ok_with_null_body_witness :
  error (run initialState
           (handlePredict exampleHost
              (respondsWith {| ok := true; status := 200; json := inr JSNull |})
              initialState))
  = Some "Cannot read properties of null (reading 'predicted_ideal_temperature')".
Proof.
  apply (ok_with_null_body exampleHost
           (respondsWith {| ok := true; status := 200; json := inr JSNull |})
           initialState
           {| ok := true; status := 200; json := inr JSNull |});
    reflexivity.
Defined.

Lemma error_status_other_bodies_witness :
  getIdealTemperaturePrediction exampleHost
    (respondsWith {| ok := false; status := 502; json := inl syntaxError |})
    (apiInput (environmentalData initialState))
  = inl syntaxError.
Proof.
  apply (error_status_other_bodies exampleHost
           (respondsWith {| ok := false; status := 502;
                            json := inl syntaxError |})
           initialState
           {| ok := false; status := 502; json := inl syntaxError |});
    reflexivity.
Defined.

Lemma network_failure_witness :
  getIdealTemperaturePrediction exampleHost
    (fun _ => Rejected (ThrownError (mkError "Failed to fetch")))
    (apiInput (environmentalData initialState))
  = inl (mkError "Failed to fetch").
Proof.
  apply (network_failure exampleHost
           (fun _ => Rejected (ThrownError (mkError "Failed to fetch")))
           initialState (ThrownError (mkError "Failed to fetch")));
    reflexivity.
Defined.

(** * Further properties of the state handlers *)








(** X9: the override of the card.  An entry that parses to NaN is
    dropped: nothing is written and the card stays in edit mode.  Any other
    number, the infinities included, becomes both the custom and the
    predicted temperature, leaves the rest of the state alone and closes
    the editor. *)
Theorem custom_temperature_override (parseFloat : string -> float)
    (app : State) (card : TemperatureCard.State) :
  let temp := parseFloat (TemperatureCard.inputValue card) in
  let effects := fst (TemperatureCard.handleSubmit parseFloat app card) in
  let card' := snd (TemperatureCard.handleSubmit parseFloat app card) in
  (is_nan temp = true -> run app effects = app /\ card' = card)
  /\ (is_nan temp = false ->
      predictedTemperature (run app effects) = JSNumber temp
      /\ customTemperature (run app effects) = JSNumber temp
      /\ environmentalData (run app effects) = environmentalData app
      /\ error (run app effects) = error app
      /\ isLoading (run app effects) = isLoading app
      /\ TemperatureCard.isEditing card' = false).
Proof.
  cbv zeta. unfold TemperatureCard.handleSubmit.
  destruct (is_nan (parseFloat (TemperatureCard.inputValue card))).
  - split; [intros _ | discriminate]. split; reflexivity.
  - split; [discriminate | intros _]. repeat apply conj; reflexivity.
Qed.


Lemma custom_temperature_override_witness :
  predictedTemperature
    (run initialState
       (fst (TemperatureCard.handleSubmit (fun _ => 21.5%float) initialState
               (TemperatureCard.mkCard true "21.5"))))
  = JSNumber 21.5.
Proof.
  destruct (custom_temperature_override (fun _ => 21.5%float) initialState
              (TemperatureCard.mkCard true "21.5")) as (_ & H).
  apply H. reflexivity.
Defined.

(** * Further properties of the local heuristic *)

(** ** NaN and the comparisons *)

Section NaN.

Lemma SFeqb_refl (x : spec_float) : x <> S754_nan -> SFeqb x x = true.
Proof.
  destruct x as [s|s| |s m e]; try reflexivity.
  - intros _. destruct s; reflexivity.
  - congruence.
  - intros _. unfold SFeqb, SFcompare.
    rewrite Z.compare_refl, Pos.compare_cont_refl. destruct s; reflexivity.
Qed.

Lemma is_nan_spec (x : float) : is_nan x = true <-> Prim2SF x = S754_nan.
Proof.
  unfold is_nan. rewrite FloatAxioms.eqb_spec. split.
  - intros H. destruct (Prim2SF x) eqn:E; try reflexivity;
      rewrite SFeqb_refl in H by discriminate; discriminate.
  - intros ->. reflexivity.
Qed.

Lemma nan_add_l (x y : float) : is_nan x = true -> is_nan (x + y) = true.
Proof.
  rewrite !is_nan_spec, FloatAxioms.add_spec. intros ->. reflexivity.
Qed.

Lemma nan_add_r (x y : float) : is_nan y = true -> is_nan (x + y) = true.
Proof.
  rewrite !is_nan_spec, FloatAxioms.add_spec. intros ->.
  destruct (Prim2SF x); reflexivity.
Qed.

Lemma nan_sub_l (x y : float) : is_nan x = true -> is_nan (x - y) = true.
Proof.
  rewrite !is_nan_spec, FloatAxioms.sub_spec. intros ->. reflexivity.
Qed.

Lemma nan_sub_r (x y : float) : is_nan y = true -> is_nan (x - y) = true.
Proof.
  rewrite !is_nan_spec, FloatAxioms.sub_spec. intros ->.
  destruct (Prim2SF x); reflexivity.
Qed.

Lemma nan_mul_l (x y : float) : is_nan x = true -> is_nan (x * y) = true.
Proof.
  rewrite !is_nan_spec, FloatAxioms.mul_spec. intros ->. reflexivity.
Qed.

Lemma nan_div_l (x y : float) : is_nan x = true -> is_nan (x / y) = true.
Proof.
  rewrite !is_nan_spec, FloatAxioms.div_spec. intros ->. reflexivity.
Qed.

Lemma nan_ltb_l (x y : float) : is_nan x = true -> (x <? y) = false.
Proof.
  rewrite is_nan_spec, FloatAxioms.ltb_spec. intros ->. reflexivity.
Qed.

Lemma nan_ltb_r (x y : float) : is_nan y = true -> (x <? y) = false.
Proof.
  rewrite is_nan_spec, FloatAxioms.ltb_spec. intros ->.
  destruct (Prim2SF x); reflexivity.
Qed.

Lemma nan_Math_min_l (a b : float) :
  is_nan a = true -> is_nan (Math_min a b) = true.
Proof. intros H. unfold Math_min. rewrite H. reflexivity. Qed.

Lemma nan_roundIdeal (x : float) :
  is_nan x = true -> is_nan (roundIdeal x) = true.
Proof.
  intros H. pose proof H as Hsf. apply is_nan_spec in Hsf.
  unfold roundIdeal, rem1. rewrite Hsf.
  change (nan <? 0.5) with false. cbv iota.
  unfold Math_ceil. rewrite Hsf. exact H.
Qed.

(** a NaN stays a NaN through the steps that add or subtract a constant *)
Lemma nan_step (b : bool) (x c : float) :
  is_nan x = true ->
  is_nan (if b then x + c else x) = true
  /\ is_nan (if b then x - c else x) = true.
Proof.
  intros H. destruct b; split;
    first [assumption | apply nan_add_l, H | apply nan_sub_l, H].
Qed.

Lemma nan_after_sunlight (data : EnvironmentalData) (t : float) :
  is_nan t = true ->
  is_nan
    (let idealTemp := t in
     let idealTemp :=
       if roomSize data >? 50 then idealTemp + 0.5 else idealTemp in
     if windowOpen data then
       if outdoorTemp data >? indoorTemp data then idealTemp - 1
       else idealTemp + 0.5
     else idealTemp) = true.
Proof.
  intros H. cbv zeta.
  assert (H1 : is_nan (if roomSize data >? 50 then t + 0.5 else t) = true)
    by apply (nan_step _ _ _ H).
  destruct (windowOpen data); [|exact H1].
  destruct (outdoorTemp data >? indoorTemp data);
    [apply nan_sub_l | apply nan_add_l]; exact H1.
Qed.

Lemma nan_after_occupancy (data : EnvironmentalData) (t : float) :
  is_nan t = true ->
  is_nan
    (let idealTemp := t in
     let idealTemp :=
       if (weatherCondition data =? "sunny")%string then idealTemp - 0.5
       else if (weatherCondition data =? "rainy")%string
            || (weatherCondition data =? "cloudy")%string then idealTemp + 0.5
       else if (weatherCondition data =? "snowy")%string
            || (weatherCondition data =? "stormy")%string then idealTemp + 1
       else idealTemp in
     let idealTemp :=
       if (timeOfDay data =? "morning")%string then idealTemp + 0.5
       else if (timeOfDay data =? "afternoon")%string then idealTemp - 0.5
       else if (timeOfDay data =? "night")%string then idealTemp + 1
       else idealTemp in
     idealTemp) = true.
Proof.
  intros H. cbv zeta.
  set (t1 := if (weatherCondition data =? "sunny")%string then t - 0.5
             else if (weatherCondition data =? "rainy")%string
                  || (weatherCondition data =? "cloudy")%string then t + 0.5
             else if (weatherCondition data =? "snowy")%string
                  || (weatherCondition data =? "stormy")%string then t + 1
             else t).
  assert (H1 : is_nan t1 = true).
  { unfold t1.
    destruct (weatherCondition data =? "sunny")%string;
      [apply nan_sub_l, H|].
    destruct ((weatherCondition data =? "rainy")%string
              || (weatherCondition data =? "cloudy")%string);
      [apply nan_add_l, H|].
    destruct ((weatherCondition data =? "snowy")%string
              || (weatherCondition data =? "stormy")%string);
      [apply nan_add_l, H | exact H]. }
  destruct (timeOfDay data =? "morning")%string; [apply nan_add_l, H1|].
  destruct (timeOfDay data =? "afternoon")%string; [apply nan_sub_l, H1|].
  destruct (timeOfDay data =? "night")%string;
    [apply nan_add_l, H1 | exact H1].
Qed.

End NaN.

(** X11: a NaN in any of the three numbers that enter the arithmetic
    (what [parseFloat] gives for an emptied form field) makes the result
    NaN. *)
Theorem nan_input_gives_nan (data : EnvironmentalData)
    (Hnan : is_nan (outdoorTemp data) = true
            \/ is_nan (occupancy data) = true
            \/ is_nan (sunlightIntensity data) = true) :
  is_nan (calculateIdealTemperature data) = true.
Proof.
  unfold calculateIdealTemperature. apply nan_roundIdeal.
  unfold idealBeforeRounding.
  set (t1 := 24 + (outdoorTemp data - 24) * 0.1).
  set (t2 := if humidity data >? 70 then t1 - 1
             else if humidity data <? 30 then t1 + 0.5 else t1).
  set (t3 := t2 - Math_min (occupancy data * 0.2) 2).
  assert (Hsun : forall t,
             is_nan t = true \/ is_nan (sunlightIntensity data) = true ->
             is_nan (t - sunlightIntensity data / 10 * 1.5) = true).
  { intros t [H | H]; [apply nan_sub_l, H|].
    apply nan_sub_r, nan_mul_l, nan_div_l, H. }
  assert (Hocc : is_nan t2 = true \/ is_nan (occupancy data) = true ->
                 is_nan t3 = true).
  { intros [H | H]; [apply nan_sub_l, H|].
    apply nan_sub_r, nan_Math_min_l, nan_mul_l, H. }
  assert (Hout : is_nan (outdoorTemp data) = true -> is_nan t2 = true).
  { intros H.
    assert (H1 : is_nan t1 = true)
      by apply nan_add_r, nan_mul_l, nan_sub_l, H.
    unfold t2. destruct (humidity data >? 70); [apply nan_sub_l, H1|].
    destruct (humidity data <? 30); [apply nan_add_l, H1 | exact H1]. }
  apply nan_after_sunlight. apply Hsun.
  destruct Hnan as [H | [H | H]].
  - left. apply nan_after_occupancy, Hocc. left. apply Hout, H.
  - left. apply nan_after_occupancy, Hocc. right. exact H.
  - right. exact H.
Qed.

Lemma nan_input_gives_nan_witness :
  is_nan (calculateIdealTemperature
            {| indoorTemp := 26; outdoorTemp := nan; humidity := 60;
               occupancy := 2; weatherCondition := "sunny";
               timeOfDay := "afternoon"; sunlightIntensity := 7;
               roomSize := 25; windowOpen := false |}) = true.
Proof.
  apply nan_input_gives_nan. left. reflexivity.
Defined.

(** X10: the three fields that are only compared may be anything, NaN and
    the infinities included: the result is finite as soon as
    [outdoorTemp], [occupancy] and [sunlightIntensity] are. *)
Theorem finite_whatever_is_compared (data : EnvironmentalData)
    (Hout : is_finite (outdoorTemp data) = true)
    (Hocc : is_finite (occupancy data) = true)
    (Hsun : is_finite (sunlightIntensity data) = true) :
  is_finite (calculateIdealTemperature data) = true.
Proof.
  unfold calculateIdealTemperature. apply roundIdeal_finite.
  apply within_is_finite
    with (1 := idealBeforeRounding_within data Hout Hocc Hsun).
Qed.

Lemma finite_whatever_is_compared_witness :
  is_finite (calculateIdealTemperature
               {| indoorTemp := nan; outdoorTemp := 30; humidity := nan;
                  occupancy := 2; weatherCondition := "sunny";
                  timeOfDay := "afternoon"; sunlightIntensity := 7;
                  roomSize := infinity; windowOpen := true |}) = true.
Proof.
  apply finite_whatever_is_compared; reflexivity.
Defined.

(** ** More of the order of binary64 numbers *)

Section FloatOrderMore.

Ltac cmp_cases :=
  repeat match goal with
  | |- context [Z.compare ?a ?b] => destruct (Z.compare_spec a b)
  | |- context [Pos.compare_cont Eq ?a ?b] =>
      change (Pos.compare_cont Eq a b) with (Pos.compare a b);
      destruct (Pos.compare_spec a b)
  end; subst; simpl; try reflexivity; try discriminate; try lia.

Lemma SFleb_SFltb_trans (x y z : spec_float) :
  SFleb x y = true -> SFltb y z = true -> SFltb x z = true.
Proof.
  unfold SFleb, SFltb, SFcompare.
  destruct x as [[]|[]| |[] mx ex], y as [[]|[]| |[] my ey],
           z as [[]|[]| |[] mz ez];
    simpl; try reflexivity; try discriminate; cmp_cases.
Qed.




Lemma leb_ltb_trans (a b c : float) :
  (a <=? b) = true -> (b <? c) = true -> (a <? c) = true.
Proof.
  rewrite FloatAxioms.leb_spec, !FloatAxioms.ltb_spec.
  apply SFleb_SFltb_trans.
Qed.


End FloatOrderMore.






(** X14: the bucketing of the room size is monotone: a larger room never
    gets a smaller bucket. *)
Theorem roomSizeApi_monotone (d1 d2 : EnvironmentalData)
    (Hle : (roomSize d1 <=? roomSize d2) = true) :
  (bucketRank (roomSizeApi d1) <= bucketRank (roomSizeApi d2))%nat.
Proof.
  unfold roomSizeApi.
  destruct (roomSize d2 <? 15) eqn:H15.
  - rewrite (leb_ltb_trans _ _ _ Hle H15). apply le_n.
  - destruct (roomSize d2 <? 30) eqn:H30.
    + rewrite (leb_ltb_trans _ _ _ Hle H30).
      destruct (roomSize d1 <? 15); cbv; repeat constructor.
    + destruct (roomSize d1 <? 15); [cbv; repeat constructor|].
      destruct (roomSize d1 <? 30); cbv; repeat constructor.
Qed.

Lemma roomSizeApi_monotone_witness :
  (bucketRank (roomSizeApi (withRoomSize scenario1 14.5))
   <= bucketRank (roomSizeApi (withRoomSize scenario1 15)))%nat.
Proof.
  apply roomSizeApi_monotone. reflexivity.
Defined.

(** X15: a room size that is NaN (an emptied form field) is neither below
    15 nor below 30, so the remote path sends it as Large, and the local
    path, where it is not above 50 either, makes no room-size adjustment:
    the result is the one of any room size up to 50. *)
Theorem nan_roomSize (d : EnvironmentalData) (r : float)
    (Hnan : is_nan (roomSize d) = true)
    (Hr : (r <=? 50) = true) :
  roomSizeApi d = "Large"
  /\ calculateIdealTemperature d = calculateIdealTemperature (withRoomSize d r).
Proof.
  split.
  - unfold roomSizeApi. rewrite !(nan_ltb_l _ _ Hnan). reflexivity.
  - unfold calculateIdealTemperature, idealBeforeRounding, withRoomSize, gtb.
    simpl. rewrite (nan_ltb_r _ _ Hnan), (leb_ltb_false _ _ Hr). reflexivity.
Qed.

Lemma nan_roomSize_witness :
  roomSizeApi (withRoomSize scenario1 nan) = "Large".
Proof.
  apply (nan_roomSize (withRoomSize scenario1 nan) 25); reflexivity.
Defined.

(** X16: [humidity] and [roomSize] are only compared: two states that
    differ only in a humidity within [30, 70] and a room size of at most 50
    get the same result. *)
Theorem comfort_band_no_influence (d1 d2 : EnvironmentalData)
    (Hin : indoorTemp d1 = indoorTemp d2)
    (Hout : outdoorTemp d1 = outdoorTemp d2)
    (Hocc : occupancy d1 = occupancy d2)
    (Hwea : weatherCondition d1 = weatherCondition d2)
    (Htim : timeOfDay d1 = timeOfDay d2)
    (Hsun : sunlightIntensity d1 = sunlightIntensity d2)
    (Hwin : windowOpen d1 = windowOpen d2)
    (Hh1 : (30 <=? humidity d1) = true /\ (humidity d1 <=? 70) = true)
    (Hh2 : (30 <=? humidity d2) = true /\ (humidity d2 <=? 70) = true)
    (Hr1 : (roomSize d1 <=? 50) = true)
    (Hr2 : (roomSize d2 <=? 50) = true) :
  calculateIdealTemperature d1 = calculateIdealTemperature d2.
Proof.
  unfold calculateIdealTemperature, idealBeforeRounding, gtb.
  rewrite <- Hin, <- Hout, <- Hocc, <- Hwea, <- Htim, <- Hsun, <- Hwin.
  destruct Hh1 as [Hlo1 Hhi1], Hh2 as [Hlo2 Hhi2].
  rewrite (leb_ltb_false _ _ Hhi1), (leb_ltb_false _ _ Hhi2).
  rewrite (leb_ltb_false _ _ Hlo1), (leb_ltb_false _ _ Hlo2).
  rewrite (leb_ltb_false _ _ Hr1), (leb_ltb_false _ _ Hr2).
  reflexivity.
Qed.

Lemma comfort_band_no_influence_witness :
  calculateIdealTemperature scenario1
  = calculateIdealTemperature
      {| indoorTemp := 26; outdoorTemp := 30; humidity := 30; occupancy := 2;
         weatherCondition := "sunny"; timeOfDay := "afternoon";
         sunlightIntensity := 7; roomSize := 50; windowOpen := false |}.
Proof.
  apply comfort_band_no_influence; try reflexivity; split; reflexivity.
Defined.

(** ** Duplicate members of an error body *)

Lemma lookup_last (k : string) (v : JSValue)
    (before after : list (string * JSValue)) :
  Forall (fun kv => fst kv <> k) after ->
  lookup k (before ++ (k, v) :: after)%list = Some v.
Proof.
  intros Hafter.
  assert (Hnone : lookup k after = None).
  { induction Hafter as [|[k' v'] rest Hk _ IH]; [reflexivity|].
    simpl in *. rewrite IH.
    destruct (String.eqb_spec k' k); [contradiction | reflexivity]. }
  induction before as [|[k' v'] rest IH]; simpl.
  - rewrite Hnone, String.eqb_refl. reflexivity.
  - rewrite IH. reflexivity.
Qed.

(** X17: when the body of a failed response names [error] more than once,
    the last one is the message the client fails with (as [JSON.parse]
    keeps the last member of a name); members of other names, before or
    after, do not matter. *)
Theorem duplicate_error_member (host : Host) (fetch : Fetch)
    (data : PredictionInput) (response : Response)
    (before after : list (string * JSValue)) (msg : string)
    (Hfetch : fetch (predictRequest data) = Resolved response)
    (Hok : ok response = false)
    (Hjson : json response
             = inr (JSObject (before ++ ("error", JSString msg) :: after)%list))
    (Hafter : Forall (fun kv => fst kv <> "error") after)
    (Hmsg : msg <> "") :
  getIdealTemperaturePrediction host fetch data = inl (mkError msg).
Proof.
  unfold getIdealTemperaturePrediction, tryBlock.
  rewrite Hfetch, Hok, Hjson. simpl.
  rewrite (lookup_last "error" (JSString msg) before after Hafter).
  unfold or_else. simpl.
  destruct (String.eqb_spec msg ""); [contradiction | reflexivity].
Qed.

Lemma duplicate_error_member_witness :
  getIdealTemperaturePrediction exampleHost
    (respondsWith
       {| ok := false; status := 422;
          json := inr (JSObject [("error", JSString "first");
                                 ("error", JSString "second");
                                 ("status", JSString "error")]) |})
    (apiInput scenario1)
  = inl (mkError "second").
Proof.
  apply (duplicate_error_member exampleHost _ (apiInput scenario1)
           {| ok := false; status := 422;
              json := inr (JSObject [("error", JSString "first");
                                     ("error", JSString "second");
                                     ("status", JSString "error")]) |}
           [("error", JSString "first")] [("status", JSString "error")]
           "second");
    try reflexivity.
  - repeat constructor; discriminate.
  - discriminate.
Defined.

(** ** Rounding of negative values *)

Section NegativeRounding.

Local Open Scope Z_scope.

(** the sign bit of a finite number is the one [get_sign] reads *)
Lemma Prim2SF_sign (x : float) (s : bool) (m : positive) (e : Z) :
  Prim2SF x = S754_finite s m e -> get_sign x = s.
Proof.
  unfold Prim2SF.
  destruct (is_nan x); [discriminate|].
  destruct (PrimFloat.is_zero x); [discriminate|].
  destruct (is_infinity x); [discriminate|].
  destruct (Z.frexp x) as [r ex].
  destruct (shr_fexp prec emax _ _ loc_Exact) as [rec e'].
  destruct (shr_m rec); try discriminate.
  intros H. injection H as -> _ _. reflexivity.
Qed.

(** every result of [binary_round_aux] carries the sign it was given, and
    none is NaN *)
Lemma binary_round_aux_shape (s : bool) (m e : Z) (l : location) :
  0 <= m -> -2200 <= e ->
  match binary_round_aux prec emax s m e l with
  | S754_zero s' | S754_infinity s' | S754_finite s' _ _ => s' = s
  | S754_nan => False
  end.
Proof.
  intros Hm He. unfold binary_round_aux.
  destruct (shr_fexp_canonical m e l Hm He) as (Hm1 & Hee1 & _).
  destruct (shr_fexp prec emax m e l) as [r1 e1]. simpl fst in *. simpl snd in *.
  pose proof (round_nearest_even_bounds (shr_m r1) (loc_of_shr_record r1))
    as Hm2.
  destruct (shr_fexp_canonical
              (round_nearest_even (shr_m r1) (loc_of_shr_record r1)) e1
              loc_Exact ltac:(lia) ltac:(lia)) as (Hm3 & _).
  destruct (shr_fexp prec emax _ e1 loc_Exact) as [r3 e3]. simpl fst in *.
  destruct (shr_m r3) as [|p|p]; [reflexivity | | lia].
  destruct (e3 <=? emax - prec); reflexivity.
Qed.

Lemma binary_round_shape (s : bool) (p : positive) (e : Z) :
  -2200 <= e ->
  match binary_round prec emax s p e with
  | S754_zero s' | S754_infinity s' | S754_finite s' _ _ => s' = s
  | S754_nan => False
  end.
Proof.
  intros He. unfold binary_round.
  set (f := fexp prec emax (Zpos (digits2_pos p) + e)).
  assert (Hf : -1074 <= f) by (unfold f; rewrite fexp_eq; lia).
  assert (Hsnd : -2200 <= snd (shl_align p e f)).
  { unfold shl_align. destruct (f - e) eqn:Hd; simpl; lia. }
  destruct (shl_align p e f) as [mz ez]. simpl in Hsnd.
  apply binary_round_aux_shape; lia.
Qed.

Lemma nonpositive_below_half (r : float) :
  nonpositive (Prim2SF r) ->
  ((if PrimFloat.is_zero r then neg_zero else r) <? 0.5)%float = true.
Proof.
  intros H. destruct (PrimFloat.is_zero r); [reflexivity|].
  rewrite FloatAxioms.ltb_spec.
  change (Prim2SF 0.5) with (S754_finite false 4503599627370496 (-53)).
  destruct (Prim2SF r) as [s|s| |s m e]; simpl in H;
    try contradiction; subst; reflexivity.
Qed.

(** [x - c] is not above zero when both are negative and [c] is the
    smaller in magnitude *)
Lemma SFsub_nonpositive (mx mc : positive) (ex ec : Z) :
  -1074 <= ex -> -1074 <= ec ->
  scaled (Zpos mc) ec <= scaled (Zpos mx) ex ->
  nonpositive (SF64sub (S754_finite true mx ex) (S754_finite true mc ec)).
Proof.
  intros Hex Hec Hle. unfold SF64sub, SFsub.
  set (ez := Z.min ex ec).
  pose proof (shl_align_fst mx ex ez ltac:(unfold ez; lia)) as HX.
  pose proof (shl_align_fst mc ec ez ltac:(unfold ez; lia)) as HC.
  set (X := Zpos (fst (shl_align mx ex ez))) in *.
  set (C := Zpos (fst (shl_align mc ec ez))) in *.
  assert (HCX : C <= X).
  { destruct (Z_le_gt_dec C X) as [|Hgt]; [assumption|exfalso].
    assert (scaled X ez < scaled C ez).
    { unfold scaled. apply Z.mul_lt_mono_pos_r; [apply pow2_pos|]; unfold ez; lia. }
    rewrite HX, HC, !scaled_shift in H by (unfold ez; lia).
    replace (ez + (ex - ez)) with ex in H by lia.
    replace (ez + (ec - ez)) with ec in H by lia. lia. }
  set (z := cond_Zopp true X - cond_Zopp true C).
  assert (Hz : z = C - X) by (unfold z; simpl; lia).
  clearbody z.
  destruct z as [|p|p]; try lia.
  - exact I.
  - unfold binary_normalize.
    pose proof (binary_round_shape true p ez ltac:(unfold ez; lia)) as Hs.
    destruct (binary_round prec emax true p ez); simpl; tauto.
Qed.

Lemma binary_round_aux_exact (s : bool) (m : positive) (e : Z) :
  fexp prec emax (Zdigits2 (Zpos m) + e) = e -> e <= 971 ->
  binary_round_aux prec emax s (Zpos m) e loc_Exact = S754_finite s m e.
Proof.
  intros Hc He. unfold binary_round_aux, shr_fexp.
  rewrite Hc, Z.sub_diag.
  cbn [shr shr_record_of_loc shr_m loc_of_shr_record round_nearest_even].
  rewrite Hc, Z.sub_diag.
  cbn [shr shr_record_of_loc shr_m loc_of_shr_record round_nearest_even].
  change (emax - prec) with 971.
  destruct (Z.leb_spec e 971); [reflexivity | lia].
Qed.

(** an integer below [2^53] converts exactly *)
Lemma of_uint63_exact (q : Z) :
  0 < q < 2 ^ 53 ->
  exists (mq : positive) (eq : Z),
    Prim2SF (of_uint63 (Uint63.of_Z q)) = S754_finite false mq eq
    /\ scaled (Zpos mq) eq = scaled q 0.
Proof.
  intros Hq. rewrite of_uint63_spec, Uint63.of_Z_spec.
  assert (HwB : Uint63Axioms.wB = 2 ^ 63) by reflexivity.
  rewrite HwB, Z.mod_small
    by (split; [lia | apply Z.lt_trans with (2 ^ 53); [lia | reflexivity]]).
  destruct q as [|p|p]; try lia.
  unfold binary_normalize, binary_round.
  set (d := Zdigits2 (Zpos p)).
  change (Zpos (digits2_pos p)) with d.
  assert (Hd1 : 0 < d) by (unfold d; simpl; lia).
  assert (Hd53 : d <= 53) by (apply Zdigits2_le; lia).
  rewrite Z.add_0_r.
  assert (Hf : fexp prec emax d = d - 53) by (rewrite fexp_eq; lia).
  rewrite Hf.
  pose proof (shl_align_fst p 0 (d - 53) ltac:(lia)) as Hfst.
  assert (Hsnd : snd (shl_align p 0 (d - 53)) = d - 53).
  { unfold shl_align. destruct (d - 53 - 0) eqn:E; cbn [snd]; lia. }
  destruct (shl_align p 0 (d - 53)) as [mz ez].
  cbn [fst snd] in Hfst, Hsnd. subst ez.
  exists mz, (d - 53).
  split.
  - apply binary_round_aux_exact; [|lia].
    rewrite Hfst, Zdigits2_shift by lia. fold d.
    rewrite fexp_eq. lia.
  - rewrite Hfst, scaled_shift by lia. f_equal. lia.
Qed.


(** the remainder [x % 1] of a negative number is not above zero *)
Lemma rem1_negative (x : float) (m : positive) (e : Z) :
  Prim2SF x = S754_finite true m e ->
  (rem1 x <? 0.5)%float = true.
Proof.
  intros Hx. unfold rem1. rewrite Hx.
  apply nonpositive_below_half.
  pose proof (Prim2SF_valid x) as Hv. rewrite Hx in Hv.
  destruct (valid_finite true m e Hv) as (He & Hd & _).
  assert (Hm : Zpos m < 2 ^ 53).
  { apply Z.lt_le_trans with (2 ^ Zdigits2 (Zpos m)).
    - apply Zdigits2_upper. lia.
    - apply Z.pow_le_mono_r; lia. }
  unfold Math_trunc. rewrite (Prim2SF_sign x true m e Hx).
  unfold Math_ceil. rewrite Hx.
  destruct (Z.leb_spec 0 e) as [Hpos | Hneg].
  - (* an integer already: [x - x] *)
    rewrite FloatAxioms.sub_spec, Hx.
    apply SFsub_nonpositive; lia.
  - (* [x - ceil x] *)
    set (q := Zpos m / 2 ^ (- e)).
    assert (Hq : - (- cond_Zopp true (Zpos m) / 2 ^ (- e)) = - q).
    { unfold q. change (- cond_Zopp true (Zpos m)) with (Zpos m).
      reflexivity. }
    rewrite Hq. clear Hq.
    pose proof (pow2_pos (- e) ltac:(lia)) as Hp.
    assert (Hq0 : 0 <= q) by (apply Z.div_pos; lia).
    assert (Hqm : q * 2 ^ (- e) <= Zpos m)
      by (unfold q; rewrite Z.mul_comm; apply Z.mul_div_le; lia).
    assert (Hq53 : q < 2 ^ 53) by nia.
    unfold of_int. rewrite Z.abs_opp, Z.abs_eq by lia.
    rewrite FloatAxioms.sub_spec, opp_spec, Hx.
    destruct (Z.eq_dec q 0) as [Hz | Hnz].
    + rewrite Hz. change (Prim2SF (of_uint63 (Uint63.of_Z 0)))
        with (S754_zero false). reflexivity.
    + destruct (of_uint63_exact q ltac:(lia)) as (mq & eq & Hf & Hval).
      rewrite Hf. simpl SFopp.
      pose proof (Prim2SF_valid (of_uint63 (Uint63.of_Z q))) as Hvq.
      rewrite Hf in Hvq.
      destruct (valid_finite false mq eq Hvq) as (Heq & _).
      apply SFsub_nonpositive; try lia.
      rewrite Hval. unfold scaled.
      replace (e + 2200) with ((- e) + (e + 2200) + e) by lia.
      replace (0 + 2200) with ((- e) + (e + 2200)) by lia.
      rewrite (pow2_split (- e) (e + 2200)) by lia.
      pose proof (pow2_pos (e + 2200) ltac:(lia)) as Hp2.
      replace (- e + (e + 2200) + e) with (e + 2200) by lia.
      nia.
Qed.

End NegativeRounding.

(** X13: below zero the rounding step always rounds down: for every
    finite negative value before rounding the result is its floor,
    whatever the fraction, since the remainder of JavaScript has the sign
    of the dividend and so is never 0.5 or more; -0.3, -0.5 and -0.7 give
    -1 and -2.5 gives -3. *)
Theorem negative_rounds_down (x : float)
    (Hfinite : is_finite x = true)
    (Hneg : (x <? 0) = true) :
  roundIdeal x = Math_floor x
  /\ map roundIdeal [-0.3; -0.5; -0.7; -2.5] = [-1; -1; -1; -3].
Proof.
  split; [|reflexivity].
  unfold roundIdeal.
  rewrite FloatAxioms.ltb_spec in Hneg.
  change (Prim2SF 0) with (S754_zero false) in Hneg.
  pose proof (is_finite_within x Hfinite) as Hw. unfold within in Hw.
  destruct (Prim2SF x) as [s|s| |s m e] eqn:Hx;
    simpl in Hw; try contradiction; try discriminate.
  destruct s; [|discriminate].
  rewrite (rem1_negative x m e Hx). reflexivity.
Qed.

Lemma negative_rounds_down_witness :
  roundIdeal (-12.75) = Math_floor (-12.75).
Proof.
  apply (negative_rounds_down (-12.75)); reflexivity.
Defined.

(** ** The result is a whole number *)

Section WholeNumber.

Local Open Scope Z_scope.

Lemma whole_opp (x : spec_float) : whole x -> whole (SFopp x).
Proof. destruct x; simpl; tauto. Qed.

Lemma of_int_whole (s : bool) (z : Z) :
  Z.abs z < 2 ^ 53 -> whole (Prim2SF (of_int s z)).
Proof.
  intros Hz. unfold of_int.
  assert (Hf : whole (Prim2SF (of_uint63 (Uint63.of_Z (Z.abs z))))).
  { destruct (Z.eq_dec (Z.abs z) 0) as [H0 | Hne].
    - rewrite H0. exact I.
    - destruct (of_uint63_exact (Z.abs z) ltac:(lia)) as (mq & eq & Hq & Hval).
      rewrite Hq. simpl.
      destruct (Z_le_gt_dec 0 eq) as [|Hneg]; [left; assumption | right].
      pose proof (Prim2SF_valid (of_uint63 (Uint63.of_Z (Z.abs z)))) as Hv.
      rewrite Hq in Hv. destruct (valid_finite false mq eq Hv) as (Heq & _).
      assert (Hm : Zpos mq = Z.abs z * 2 ^ (- eq)).
      { unfold scaled in Hval.
        replace (0 + 2200) with ((- eq) + (eq + 2200)) in Hval by lia.
        rewrite (pow2_split (- eq) (eq + 2200)) in Hval by lia.
        pose proof (pow2_pos (eq + 2200) ltac:(lia)) as Hp.
        rewrite Z.mul_assoc in Hval.
        apply Z.mul_cancel_r in Hval; lia. }
      rewrite Hm. apply Z.mod_mul.
      pose proof (pow2_pos (- eq) ltac:(lia)). lia. }
  destruct s; [|assumption].
  rewrite opp_spec. apply whole_opp, Hf.
Qed.

Lemma Math_floor_whole (x : float) :
  is_finite x = true -> whole (Prim2SF (Math_floor x)).
Proof.
  intros Hfin. unfold Math_floor.
  pose proof (Prim2SF_valid x) as Hv.
  pose proof (is_finite_within x Hfin) as Hw. unfold within in Hw.
  destruct (Prim2SF x) as [s|s| |s m e] eqn:Hx;
    cbn [rounds_within] in Hw; try contradiction.
  - rewrite Hx. exact I.
  - destruct (Z.leb_spec 0 e) as [Hpos | Hneg].
    + rewrite Hx. left. assumption.
    + destruct (valid_finite s m e Hv) as (He & Hd & _).
      assert (Hm : Zpos m < 2 ^ 53).
      { apply Z.lt_le_trans with (2 ^ Zdigits2 (Zpos m)).
        - apply Zdigits2_upper. lia.
        - apply Z.pow_le_mono_r; lia. }
      apply of_int_whole.
      destruct (div_pow2_abs (Zpos m) (- e) s) as [Hfl Hce]; lia.
Qed.

Lemma Math_ceil_whole (x : float) :
  is_finite x = true -> whole (Prim2SF (Math_ceil x)).
Proof.
  intros Hfin. unfold Math_ceil.
  pose proof (Prim2SF_valid x) as Hv.
  pose proof (is_finite_within x Hfin) as Hw. unfold within in Hw.
  destruct (Prim2SF x) as [s|s| |s m e] eqn:Hx;
    cbn [rounds_within] in Hw; try contradiction.
  - rewrite Hx. exact I.
  - destruct (Z.leb_spec 0 e) as [Hpos | Hneg].
    + rewrite Hx. left. assumption.
    + destruct (valid_finite s m e Hv) as (He & Hd & _).
      assert (Hm : Zpos m < 2 ^ 53).
      { apply Z.lt_le_trans with (2 ^ Zdigits2 (Zpos m)).
        - apply Zdigits2_upper. lia.
        - apply Z.pow_le_mono_r; lia. }
      apply of_int_whole.
      destruct (div_pow2_abs (Zpos m) (- e) s) as [Hfl Hce]; lia.
Qed.

End WholeNumber.

(** X18: the recommendation is a whole number of degrees: whenever
    [outdoorTemp], [occupancy] and [sunlightIntensity] are finite, the
    result of [calculateIdealTemperature] is a zero or a finite binary64
    number [m * 2^e] that is an integer. *)
Theorem result_is_whole (data : EnvironmentalData)
    (Hout : is_finite (outdoorTemp data) = true)
    (Hocc : is_finite (occupancy data) = true)
    (Hsun : is_finite (sunlightIntensity data) = true) :
  whole (Prim2SF (calculateIdealTemperature data)).
Proof.
  assert (Hfin : is_finite (idealBeforeRounding data) = true)
    by apply (within_is_finite _ _
                (idealBeforeRounding_within data Hout Hocc Hsun)).
  unfold calculateIdealTemperature, roundIdeal.
  destruct (rem1 (idealBeforeRounding data) <? 0.5);
    [apply Math_floor_whole | apply Math_ceil_whole]; exact Hfin.
Qed.

Lemma result_is_whole_witness :
  whole (Prim2SF (calculateIdealTemperature extremeState)).
Proof.
  apply result_is_whole; reflexivity.
Defined.

(** ** Tags without an adjustment *)

Lemma eqb_of_not_in (t : string) (tags : list string) (tag : string) :
  ~ In t tags -> In tag tags -> (t =? tag)%string = false.
Proof.
  intros Hnot Hin. destruct (String.eqb_spec t tag); [|reflexivity].
  subst. contradiction.
Qed.

(** X19: the two [switch] statements have no default arm that adjusts: any
    weather tag other than sunny, rainy, cloudy, snowy and stormy (the
    defined partlyCloudy, windy and foggy, and every undefined tag) gives
    the same result, and so does any time tag other than morning, afternoon
    and night (evening, and every undefined tag). *)
Theorem unadjusted_tags (d : EnvironmentalData) (w1 w2 t1 t2 : string)
    (Hw1 : ~ In w1 ["sunny"; "rainy"; "cloudy"; "snowy"; "stormy"])
    (Hw2 : ~ In w2 ["sunny"; "rainy"; "cloudy"; "snowy"; "stormy"])
    (Ht1 : ~ In t1 ["morning"; "afternoon"; "night"])
    (Ht2 : ~ In t2 ["morning"; "afternoon"; "night"]) :
  calculateIdealTemperature (withWeather d w1)
  = calculateIdealTemperature (withWeather d w2)
  /\ calculateIdealTemperature (withTime d t1)
     = calculateIdealTemperature (withTime d t2).
Proof.
  unfold calculateIdealTemperature, idealBeforeRounding, withWeather, withTime.
  simpl.
  rewrite !(eqb_of_not_in w1 _ _ Hw1) by (simpl; tauto).
  rewrite !(eqb_of_not_in w2 _ _ Hw2) by (simpl; tauto).
  rewrite !(eqb_of_not_in t1 _ _ Ht1) by (simpl; tauto).
  rewrite !(eqb_of_not_in t2 _ _ Ht2) by (simpl; tauto).
  split; reflexivity.
Qed.

Lemma unadjusted_tags_witness :
  calculateIdealTemperature (withWeather scenario1 "foggy")
  = calculateIdealTemperature (withWeather scenario1 "tornado").
Proof.
  apply (unadjusted_tags scenario1 "foggy" "tornado" "evening" "noon");
    simpl; intuition discriminate.
Defined.
